(** * The QIR sample control program of [sim/main.c]

    The program drives a quantum backend through seven declared intrinsics.
    Here the backend is an interface ([QISA]); the program is written once,
    against any implementation of it, in a state monad over a [World] that
    holds the backend's state and the log of the intrinsic calls issued so
    far.  The unbounded [while] of [random_numbers_over_500] takes fuel and
    reports its exhaustion. *)

From Stdlib Require Import ZArith List Lia Bool.
Import ListNotations.
Local Open Scope Z_scope.

(** ** C [int] arithmetic

    A 32-bit two's-complement [int] as a [Z] in [-2^31, 2^31).  [<<] is taken
    with wrap-around; the program only ever shifts 0 or 1 by at most 8 when
    the backend returns bits. *)

Module Int.

Definition wrap (z : Z) : Z := (z + 2 ^ 31) mod 2 ^ 32 - 2 ^ 31.

Definition shl (a n : Z) : Z := wrap (Z.shiftl a n).

Definition or (a b : Z) : Z := Z.lor a b.

Definition lt (a b : Z) : bool := a <? b.

End Int.

(** ** The intrinsic interface (main.c, lines 4-10)

    Qubit and result handles are the integers the program casts to [void*]. *)

Class QISA (B : Type) : Type := {
  __quantum__qis__x__body : Z -> B -> B;
  __quantum__qis__h__body : Z -> B -> B;
  __quantum__qis__cz__body : Z -> Z -> B -> B;
  __quantum__qis__mresetz__body : Z -> Z -> B -> B;
  __quantum__qis__read_result__body : Z -> B -> Z * B;
  __quantum__rt__array_record_output : Z -> Z -> B -> B;
  __quantum__rt__result_record_output : Z -> Z -> B -> B
}.

(** One entry of the call log: the intrinsic, its arguments and, for
    [read_result], the value the backend returned. *)
Inductive intrinsic : Type :=
| qis_x (qubit : Z)
| qis_h (qubit : Z)
| qis_cz (control target : Z)
| qis_mresetz (qubit result : Z)
| qis_read_result (result ret : Z)
| rt_array_record_output (size label : Z)
| rt_result_record_output (rid label : Z).

(** The seven operations, without arguments. *)
Inductive operation : Type :=
| apply_X | apply_H | apply_controlled_phase | measure_and_reset
| read_bit | record_array_output | record_scalar_output.

Definition operation_of (e : intrinsic) : operation :=
  match e with
  | qis_x _ => apply_X
  | qis_h _ => apply_H
  | qis_cz _ _ => apply_controlled_phase
  | qis_mresetz _ _ => measure_and_reset
  | qis_read_result _ _ => read_bit
  | rt_array_record_output _ _ => record_array_output
  | rt_result_record_output _ _ => record_scalar_output
  end.

Definition operation_eqb (a b : operation) : bool :=
  match a, b with
  | apply_X, apply_X | apply_H, apply_H
  | apply_controlled_phase, apply_controlled_phase
  | measure_and_reset, measure_and_reset | read_bit, read_bit
  | record_array_output, record_array_output
  | record_scalar_output, record_scalar_output => true
  | _, _ => false
  end.

Record World (B : Type) : Type := mkWorld {
  backend : B;
  calls : list intrinsic
}.
Arguments mkWorld {B} _ _.
Arguments backend {B} _.
Arguments calls {B} _.

(** A fresh run: nothing called yet. *)
Definition init {B : Type} (b : B) : World B := mkWorld b [].

(** Index values taken by [for (int i = lo; i < hi; i++)] and by
    [for (int i = hi; i >= lo; i--)]. *)
Definition upto (lo hi : Z) : list Z :=
  map (fun k => lo + Z.of_nat k) (seq 0 (Z.to_nat (hi - lo))).

Definition downto (hi lo : Z) : list Z := rev (upto lo (hi + 1)).

Declare Scope prog_scope.
Delimit Scope prog_scope with prog.

Section Program.

Context {B : Type} {qisa : QISA B}.

Definition M (A : Type) : Type := World B -> A * World B.

Definition ret {A : Type} (a : A) : M A := fun w => (a, w).

Definition bind {A C : Type} (m : M A) (k : A -> M C) : M C :=
  fun w => let '(a, w1) := m w in k a w1.

Notation "x <- c1 ;; c2" := (bind c1 (fun x => c2))
  (at level 61, c1 at next level, right associativity) : prog_scope.
Notation "c1 ;; c2" := (bind c1 (fun _ => c2))
  (at level 61, right associativity) : prog_scope.
Local Open Scope prog_scope.

(** *** Calls into the backend, each logged

    [h__body q] is the source's call of [__quantum__qis__h__body] on the
    handle [q], and so on: the backend's operation runs on the backend state
    and the call is appended to the log.  The program never calls the X gate
    nor the array record. *)

Definition h__body (qubit : Z) : M unit := fun w =>
  (tt, mkWorld (__quantum__qis__h__body qubit (backend w))
               (calls w ++ [qis_h qubit])).

Definition cz__body (control target : Z) : M unit := fun w =>
  (tt, mkWorld (__quantum__qis__cz__body control target (backend w))
               (calls w ++ [qis_cz control target])).

Definition mresetz__body (qubit result : Z) : M unit := fun w =>
  (tt, mkWorld (__quantum__qis__mresetz__body qubit result (backend w))
               (calls w ++ [qis_mresetz qubit result])).

Definition read_result__body (result : Z) : M Z := fun w =>
  let '(v, b) := __quantum__qis__read_result__body result (backend w) in
  (v, mkWorld b (calls w ++ [qis_read_result result v])).

Definition result_record_output (rid label : Z) : M unit := fun w =>
  (tt, mkWorld (__quantum__rt__result_record_output rid label (backend w))
               (calls w ++ [rt_result_record_output rid label])).

(** *** Loops over an index list *)

Fixpoint for_each (l : list Z) (body : Z -> M unit) : M unit :=
  match l with
  | [] => ret tt
  | i :: l' => body i ;; for_each l' body
  end.

Fixpoint for_fold (l : list Z) (acc : Z) (body : Z -> Z -> M Z) : M Z :=
  match l with
  | [] => ret acc
  | i :: l' => acc' <- body acc i ;; for_fold l' acc' body
  end.

(** *** Utility functions (main.c, lines 15-32) *)

Definition CX (control target : Z) : M unit :=
  h__body target ;;
  cz__body control target ;;
  h__body target.

Definition H (qubit : Z) : M unit :=
  h__body qubit.

Definition MResetZ (qubit result : Z) : M Z :=
  mresetz__body qubit result ;;
  read_result__body result.

Definition RecordResult (result : Z) : M unit :=
  result_record_output result 0.

(** *** Program functions (main.c, lines 37-76) *)

Definition make_random_state : M unit :=
  for_each (upto 0 9) H.

Definition measure_as_int : M Z :=
  for_fold (upto 0 9) 0 (fun result i =>
    r <- MResetZ i i ;;
    ret (Int.or result (Int.shl r i))).

(** The [while (result < 500)] loop.  [None] with the world reached so far
    when the fuel runs out before the test fails. *)
Fixpoint while_result_lt_500 (fuel : nat) (result : Z) (w : World B)
  : option Z * World B :=
  if Int.lt result 500 then
    match fuel with
    | O => (None, w)
    | S fuel' =>
        let '(_, w1) := make_random_state w in
        let '(result', w2) := measure_as_int w1 in
        while_result_lt_500 fuel' result' w2
    end
  else (Some result, w).

Definition random_numbers_over_500 (fuel : nat) (w : World B)
  : option unit * World B :=
  match while_result_lt_500 fuel 0 w with
  | (Some _, w1) => (Some tt, snd (for_each (downto 8 0) RecordResult w1))
  | (None, w1) => (None, w1)
  end.

Definition full_entangle : M unit :=
  H 0 ;;
  CX 0 1 ;;
  CX 1 2 ;;
  CX 2 3 ;;
  CX 3 4 ;;
  CX 4 5 ;;
  CX 5 6 ;;
  CX 6 7 ;;
  CX 7 8 ;;
  for_each (downto 8 0) (fun i =>
    MResetZ i i ;;
    RecordResult i).

(** The entry point: [full_entangle] is commented out there. *)
Definition ENTRYPOINT__main (fuel : nat) (w : World B) : option unit * World B :=
  random_numbers_over_500 fuel w.

(** *** The loop body, unrolled without fuel *)

(** One Sampling iteration: lines 54-55. *)
Definition attempt : M Z :=
  make_random_state ;;
  measure_as_int.

(** The world after [k] iterations of the body, were the loop to go on. *)
Fixpoint world_after (k : nat) (w : World B) : World B :=
  match k with
  | O => w
  | S k' => world_after k' (snd (attempt w))
  end.

(** The accumulator measured by iteration [k] (counted from 0). *)
Definition accumulator_of (k : nat) (w : World B) : Z :=
  fst (attempt (world_after k w)).

End Program.

(** ** What the successive reads return *)

Section Observations.

Context {B : Type} {qisa : QISA B}.

(** The values [MResetZ i i] returns for [i] along [l], from world [w]. *)
Fixpoint bits_read (l : list Z) (w : World B) : list Z :=
  match l with
  | [] => []
  | i :: l' => let '(v, w1) := MResetZ i i w in v :: bits_read l' w1
  end.

(** The nine values read by the Sampling iteration that starts in [w]. *)
Definition attempt_bits (w : World B) : list Z :=
  bits_read (upto 0 9) (snd (make_random_state w)).

(** The values read by each of the first [k] iterations. *)
Definition attempts (k : nat) (w : World B) : list (list Z) :=
  map (fun j => attempt_bits (world_after j w)) (seq 0 k).

(** Iteration [k] is the first whose accumulator passes the loop test. *)
Definition first_accepted (k : nat) (w : World B) : Prop :=
  (forall j, (j < k)%nat -> accumulator_of j w < 500)
  /\ 500 <= accumulator_of k w.

(** The Done state: lines 57-59 run in world [w]. *)
Definition record_all (w : World B) : World B :=
  snd (for_each (downto 8 0) RecordResult w).

End Observations.

(** ** Expected call sequences *)

Definition CX_calls (control target : Z) : list intrinsic :=
  [qis_h target; qis_cz control target; qis_h target].

Definition MResetZ_calls (qubit result ret : Z) : list intrinsic :=
  [qis_mresetz qubit result; qis_read_result result ret].

Definition prepare_calls : list intrinsic := map qis_h (upto 0 9).

(** The calls of one [measure_as_int] over the index list [l] whose reads
    returned [bits], in that order. *)
Definition measure_calls_on (l : list Z) (bits : list Z) : list intrinsic :=
  flat_map (fun '(i, v) => MResetZ_calls i i v) (combine l bits).

Definition measure_calls (bits : list Z) : list intrinsic :=
  measure_calls_on (upto 0 9) bits.

Definition attempt_calls (bits : list Z) : list intrinsic :=
  prepare_calls ++ measure_calls bits.

Definition record_calls : list intrinsic :=
  map (fun i => rt_result_record_output i 0) (downto 8 0).

(** The accumulator the code computes from the nine returned values. *)
Definition accumulate_on (l : list Z) (bits : list Z) (acc : Z) : Z :=
  fold_left (fun a '(i, v) => Int.or a (Int.shl v i)) (combine l bits) acc.

Definition accumulate (bits : list Z) : Z := accumulate_on (upto 0 9) bits 0.

(** The accumulator as the specification words it: each bit shifted left by
    its index and OR-ed in, on unbounded integers. *)
Definition spec_accumulate (bits : list Z) : Z :=
  fold_left (fun a '(i, v) => Z.lor a (Z.shiftl v i)) (combine (upto 0 9) bits) 0.

(** Bits read most-significant first. *)
Definition decode_msb_first (bits : list Z) : Z :=
  fold_left (fun n b => 2 * n + b) bits 0.

Definition is_bit (v : Z) : Prop := v = 0 \/ v = 1.

(** The values returned by the read-bit calls of a log, in order. *)
Definition reads (tr : list intrinsic) : list Z :=
  flat_map (fun e => match e with qis_read_result _ v => [v] | _ => [] end) tr.

Definition is_record (e : intrinsic) : bool :=
  match e with rt_result_record_output _ _ => true | _ => false end.

Definition is_mresetz (e : intrinsic) : bool :=
  match e with qis_mresetz _ _ => true | _ => false end.

(** A measure-and-reset call writes the slot numbered like its qubit. *)
Definition slot_is_qubit (e : intrinsic) : bool :=
  match e with qis_mresetz qubit result => result =? qubit | _ => true end.

(** The operations the entry point's program is built from. *)
Definition sampling_operation (e : intrinsic) : bool :=
  match operation_of e with
  | apply_H | measure_and_reset | read_bit | record_scalar_output => true
  | _ => false
  end.

Definition calls_operation (op : operation) (tr : list intrinsic) : bool :=
  existsb (fun e => operation_eqb (operation_of e) op) tr.

(** Some execution of the entry routine calls [op]. *)
Definition called_by_main (op : operation) : Prop :=
  exists (B : Type) (qisa : QISA B) (b : B) (fuel : nat),
    calls_operation op (calls (snd (ENTRYPOINT__main fuel (init b)))) = true.

(** ** The backend contract

    What the claims about recorded values assume of the backend, after
    section 4.3 of the specification: read-bit returns 0 or 1 and it is the
    value the slot holds; measure-and-reset writes no slot but the one it
    names; only the record primitive writes to the output stream, and it
    appends the value the slot holds.  [stored b r] is the value slot [r]
    holds in backend state [b], [output b] the stream recorded so far. *)

Inductive output_entry : Type :=
| array_entry (size label : Z)
| result_entry (slot value label : Z).

Class Contract (B : Type) {qisa : QISA B} : Type := {
  stored : B -> Z -> Z;
  output : B -> list output_entry;
  read_is_bit : forall r b,
    is_bit (fst (__quantum__qis__read_result__body r b));
  read_is_stored : forall r b,
    fst (__quantum__qis__read_result__body r b) = stored b r;
  read_keeps_slots : forall r b r',
    stored (snd (__quantum__qis__read_result__body r b)) r' = stored b r';
  read_keeps_output : forall r b,
    output (snd (__quantum__qis__read_result__body r b)) = output b;
  h_keeps_output : forall q b,
    output (__quantum__qis__h__body q b) = output b;
  mresetz_keeps_other_slots : forall q r b r',
    r' <> r -> stored (__quantum__qis__mresetz__body q r b) r' = stored b r';
  mresetz_keeps_output : forall q r b,
    output (__quantum__qis__mresetz__body q r b) = output b;
  record_appends : forall r l b,
    output (__quantum__rt__result_record_output r l b)
    = output b ++ [result_entry r (stored b r) l];
  record_keeps_slots : forall r l b r',
    stored (__quantum__rt__result_record_output r l b) r' = stored b r'
}.

(** The entries the Done state records when the slots hold [bits]
    (slot [i] holds the [i]-th of them). *)
Definition records_of (bits : list Z) : list output_entry :=
  map (fun '(i, v) => result_entry i v 0) (combine (downto 8 0) (rev bits)).

(** ** A scripted backend *)

(** Modelled from the spec: the backend behind the seven intrinsics is not
    among the sources.  Following section 4.3, measure-and-reset stores one
    bit (the next of a script, 0 once the script is used up) into the named
    slot, read-bit returns the slot's bit without side effect, and the record
    primitives append to one output stream.  Gates leave the classical state
    alone. *)
Record Scripted : Type := mkScripted {
  script : list bool;
  slots : Z -> bool;
  recorded : list output_entry
}.

Definition scripted (bits : list bool) : Scripted :=
  mkScripted bits (fun _ => false) [].

(** Modelled from the spec: the seven intrinsics over [Scripted], as
    section 4.3 describes them. *)
#[export] Instance Scripted_QISA : QISA Scripted := {
  __quantum__qis__x__body := fun _ b => b;
  __quantum__qis__h__body := fun _ b => b;
  __quantum__qis__cz__body := fun _ _ b => b;
  __quantum__qis__mresetz__body := fun _ r b =>
    mkScripted (tl (script b))
               (fun r' => if r' =? r then hd false (script b) else slots b r')
               (recorded b);
  __quantum__qis__read_result__body := fun r b => (Z.b2z (slots b r), b);
  __quantum__rt__array_record_output := fun size label b =>
    mkScripted (script b) (slots b) (recorded b ++ [array_entry size label]);
  __quantum__rt__result_record_output := fun r label b =>
    mkScripted (script b) (slots b)
               (recorded b ++ [result_entry r (Z.b2z (slots b r)) label])
}.

(** The scripted backend keeps the contract. *)
#[export, refine] Instance Scripted_Contract : Contract Scripted := {
  stored := fun b r => Z.b2z (slots b r);
  output := recorded
}.
Proof.
  - intros r b; cbn. destruct (slots b r); [right | left]; reflexivity.
  - reflexivity.
  - reflexivity.
  - reflexivity.
  - reflexivity.
  - intros q r b r' Hne; cbn. apply Z.eqb_neq in Hne. now rewrite Hne.
  - reflexivity.
  - reflexivity.
  - reflexivity.
Defined.

(** The script of two Sampling attempts: bits in increasing qubit order,
    256 (only qubit 8 set) and then 500 (binary 111110100). *)
Definition script_256_500 : list bool :=
  [false; false; false; false; false; false; false; false; true;
   false; false; true; false; true; true; true; true; true].

Definition script_500 : list bool :=
  [false; false; true; false; true; true; true; true; true].

(** A run scripted to measure 256 and then 500, with fuel to spare. *)
Definition run_256_500 : option unit * World Scripted :=
  random_numbers_over_500 3 (init (scripted script_256_500)).

(** ** Measures of a log *)

(** How many calls of [op] a log holds. *)
Definition count_operation (op : operation) (tr : list intrinsic) : nat :=
  length (filter (fun e => operation_eqb (operation_of e) op) tr).

(** A handle of one of the nine qubits or slots. *)
Definition handle_in_range (h : Z) : bool := (0 <=? h) && (h <=? 8).

(** Every qubit and slot handle of the call is in range, and a record call
    carries the null label. *)
Definition well_addressed (e : intrinsic) : bool :=
  match e with
  | qis_x q | qis_h q => handle_in_range q
  | qis_cz c t => handle_in_range c && handle_in_range t
  | qis_mresetz q r => handle_in_range q && handle_in_range r
  | qis_read_result r _ => handle_in_range r
  | rt_array_record_output _ _ => true
  | rt_result_record_output rid label => handle_in_range rid && (label =? 0)
  end.

(** Scanning a log: every record call names a slot that is in [measured] or
    that a measure-and-reset call of the log wrote earlier. *)
Fixpoint recorded_after_measured (measured : list Z) (tr : list intrinsic)
  : bool :=
  match tr with
  | [] => true
  | qis_mresetz _ r :: tr' => recorded_after_measured (r :: measured) tr'
  | rt_result_record_output rid _ :: tr' =>
      existsb (Z.eqb rid) measured && recorded_after_measured measured tr'
  | _ :: tr' => recorded_after_measured measured tr'
  end.

(** All lists of [n] bits, in increasing order of the number they spell
    with the first bit least significant. *)
Fixpoint bit_lists (n : nat) : list (list Z) :=
  match n with
  | O => [[]]
  | S n' => flat_map (fun l => [0 :: l; 1 :: l]) (bit_lists n')
  end.

(** The loop test of [random_numbers_over_500] fails: the loop is left. *)
Definition accepted (result : Z) : bool := negb (Int.lt result 500).

(** The nine low bits of [n], bit 0 first. *)
Definition numeral_bits (n : Z) : list Z :=
  map (fun i => Z.b2z (Z.testbit n i)) [0; 1; 2; 3; 4; 5; 6; 7; 8].

(** * Proofs *)

(** ** Index lists and bit arithmetic *)

Lemma upto_0_9 : upto 0 9 = [0; 1; 2; 3; 4; 5; 6; 7; 8].
Proof. reflexivity. Qed.

Lemma downto_8_0 : downto 8 0 = [8; 7; 6; 5; 4; 3; 2; 1; 0].
Proof. reflexivity. Qed.

Lemma length_nine {A : Type} (l : list A) :
  length l = 9%nat ->
  exists a0 a1 a2 a3 a4 a5 a6 a7 a8, l = [a0; a1; a2; a3; a4; a5; a6; a7; a8].
Proof.
  intros Hl.
  do 9 (destruct l as [|? l]; [discriminate Hl|]).
  destruct l; [|discriminate Hl].
  repeat eexists.
Qed.

Ltac split_bits H :=
  repeat match type of H with
         | Forall _ (_ :: _) =>
             let Hb := fresh "Hb" in
             let Ht := fresh "Ht" in
             apply Forall_cons_iff in H; destruct H as [Hb Ht];
             destruct Hb; subst; rename Ht into H
         end.

(** On nine bits the C accumulator is the unbounded one of the
    specification and lies in [0, 511]. *)
Lemma accumulate_bits (bits : list Z) :
  length bits = 9%nat -> Forall is_bit bits ->
  accumulate bits = spec_accumulate bits /\ 0 <= accumulate bits <= 511.
Proof.
  intros Hl Hb.
  destruct (length_nine bits Hl)
    as (a0 & a1 & a2 & a3 & a4 & a5 & a6 & a7 & a8 & ->).
  split_bits Hb; vm_compute; intuition congruence.
Qed.

(** Slot 8 first is the accumulator's value read as a binary numeral. *)
Lemma decode_rev_accumulate (bits : list Z) :
  length bits = 9%nat -> Forall is_bit bits ->
  decode_msb_first (rev bits) = accumulate bits.
Proof.
  intros Hl Hb.
  destruct (length_nine bits Hl)
    as (a0 & a1 & a2 & a3 & a4 & a5 & a6 & a7 & a8 & ->).
  split_bits Hb; reflexivity.
Qed.

Lemma bits_of_256 (bits : list Z) :
  length bits = 9%nat -> Forall is_bit bits -> accumulate bits = 256 ->
  bits = [0; 0; 0; 0; 0; 0; 0; 0; 1].
Proof.
  intros Hl Hb.
  destruct (length_nine bits Hl)
    as (a0 & a1 & a2 & a3 & a4 & a5 & a6 & a7 & a8 & ->).
  split_bits Hb; vm_compute; intros E; (discriminate E || reflexivity).
Qed.

Lemma bits_of_500 (bits : list Z) :
  length bits = 9%nat -> Forall is_bit bits -> accumulate bits = 500 ->
  bits = [0; 0; 1; 0; 1; 1; 1; 1; 1].
Proof.
  intros Hl Hb.
  destruct (length_nine bits Hl)
    as (a0 & a1 & a2 & a3 & a4 & a5 & a6 & a7 & a8 & ->).
  split_bits Hb; vm_compute; intros E; (discriminate E || reflexivity).
Qed.

(** ** Facts about call sequences *)

Lemma measure_calls_on_no_record (l bits : list Z) :
  existsb is_record (measure_calls_on l bits) = false.
Proof.
  revert bits. induction l as [|i l IH]; intros [|v bits];
    try reflexivity.
  unfold measure_calls_on. cbn. apply IH.
Qed.

Lemma attempt_calls_no_record (bits : list Z) :
  existsb is_record (attempt_calls bits) = false.
Proof.
  unfold attempt_calls. rewrite existsb_app.
  unfold measure_calls. now rewrite measure_calls_on_no_record.
Qed.

Lemma attempts_calls_no_record (ats : list (list Z)) :
  existsb is_record (flat_map attempt_calls ats) = false.
Proof.
  induction ats as [|bits ats IH]; [reflexivity|].
  cbn [flat_map]. now rewrite existsb_app, attempt_calls_no_record, IH.
Qed.

(** The first record call of [A ++ R] lies in [R] when [A] has none. *)
Lemma first_record_split (A R pre post : list intrinsic) (x : intrinsic) :
  existsb is_record A = false -> is_record x = true ->
  pre ++ x :: post = A ++ R ->
  exists recs, pre = A ++ recs /\ R = recs ++ x :: post.
Proof.
  revert pre. induction A as [|a A IH]; intros pre HA Hx E.
  - exists pre. split; [reflexivity | now symmetry].
  - cbn in HA. apply orb_false_iff in HA. destruct HA as [Ha HA].
    destruct pre as [|p pre]; cbn in E; injection E as -> E.
    + congruence.
    + destruct (IH pre HA Hx E) as (recs & -> & ->).
      exists recs. split; reflexivity.
Qed.

Lemma measure_calls_on_forallb (P : intrinsic -> bool) (l bits : list Z) :
  (forall i v, P (qis_mresetz i i) = true /\ P (qis_read_result i v) = true) ->
  forallb P (measure_calls_on l bits) = true.
Proof.
  intros HP. revert bits. induction l as [|i l IH]; intros [|v bits];
    try reflexivity.
  unfold measure_calls_on. cbn [combine flat_map MResetZ_calls app forallb].
  destruct (HP i v) as [-> ->]. apply IH.
Qed.

Lemma attempt_calls_forallb (P : intrinsic -> bool) (bits : list Z) :
  forallb P prepare_calls = true ->
  (forall i v, P (qis_mresetz i i) = true /\ P (qis_read_result i v) = true) ->
  forallb P (attempt_calls bits) = true.
Proof.
  intros Hp HP. unfold attempt_calls, measure_calls.
  now rewrite forallb_app, Hp, measure_calls_on_forallb.
Qed.

Lemma attempts_calls_forallb (P : intrinsic -> bool) (ats : list (list Z)) :
  forallb P prepare_calls = true ->
  (forall i v, P (qis_mresetz i i) = true /\ P (qis_read_result i v) = true) ->
  forallb P (flat_map attempt_calls ats) = true.
Proof.
  intros Hp HP. induction ats as [|bits ats IH]; [reflexivity|].
  cbn [flat_map]. now rewrite forallb_app, IH, attempt_calls_forallb.
Qed.

Lemma reads_app (a b : list intrinsic) : reads (a ++ b) = reads a ++ reads b.
Proof. unfold reads. apply flat_map_app. Qed.

Lemma reads_measure_calls_on (l bits : list Z) :
  length bits = length l -> reads (measure_calls_on l bits) = bits.
Proof.
  revert bits. induction l as [|i l IH]; intros [|v bits] Hl;
    try discriminate Hl; [reflexivity|].
  unfold measure_calls_on. cbn. f_equal. apply IH. now injection Hl.
Qed.

Lemma reads_attempt_calls (bits : list Z) :
  length bits = 9%nat -> reads (attempt_calls bits) = bits.
Proof.
  intros Hl. unfold attempt_calls. rewrite reads_app.
  unfold measure_calls. now rewrite reads_measure_calls_on.
Qed.

Lemma reads_attempts (ats : list (list Z)) :
  Forall (fun bits => length bits = 9%nat) ats ->
  reads (flat_map attempt_calls ats) = concat ats.
Proof.
  induction 1 as [|bits ats Hb Hats IH]; [reflexivity|].
  cbn [flat_map concat]. now rewrite reads_app, reads_attempt_calls, IH.
Qed.

Lemma app_same_length {A : Type} (x y xs ys : list A) :
  length x = length y -> x ++ xs = y ++ ys -> x = y /\ xs = ys.
Proof.
  revert y. induction x as [|a x IH]; intros [|b y] Hl E;
    try discriminate Hl.
  - split; [reflexivity | exact E].
  - cbn in E. injection E as -> E. injection Hl as Hl.
    destruct (IH y Hl E) as [-> ->]. split; reflexivity.
Qed.

(** Chunks of nine are determined by their concatenation. *)
Lemma concat_nine_inj (a b : list (list Z)) :
  Forall (fun bits => length bits = 9%nat) a ->
  Forall (fun bits => length bits = 9%nat) b ->
  concat a = concat b -> a = b.
Proof.
  intros Ha. revert b. induction Ha as [|x a Hx Ha IH]; intros b Hb E.
  - destruct Hb as [|y b Hy Hb]; [reflexivity|].
    cbn in E. destruct y; [discriminate Hy | discriminate E].
  - destruct Hb as [|y b Hy Hb].
    + cbn in E. destruct x; [discriminate Hx | discriminate E].
    + cbn [concat] in E.
      destruct (app_same_length x y _ _ (eq_trans Hx (eq_sym Hy)) E)
        as [-> E'].
      f_equal. now apply IH.
Qed.

(** ** The call log of each function, for any backend *)

Section Traces.

Context {B : Type} {qisa : QISA B}.

Lemma bind_eq {A C : Type} (m : M A) (k : A -> M C) (w : World B) :
  bind m k w = k (fst (m w)) (snd (m w)).
Proof. unfold bind. now destruct (m w). Qed.

Lemma for_each_cons (i : Z) (l : list Z) (body : Z -> M unit) (w : World B) :
  for_each (i :: l) body w = for_each l body (snd (body i w)).
Proof. cbn [for_each]. now rewrite bind_eq. Qed.

Lemma for_each_calls (f : Z -> list intrinsic) (body : Z -> M unit) :
  (forall i (w : World B), calls (snd (body i w)) = calls w ++ f i) ->
  forall l (w : World B), calls (snd (for_each l body w)) = calls w ++ flat_map f l.
Proof.
  intros Hbody l; induction l as [|i l IH]; intros w.
  - cbn. now rewrite app_nil_r.
  - rewrite for_each_cons, IH, Hbody. cbn [flat_map]. now rewrite app_assoc.
Qed.

Lemma CX_run (control target : Z) (w : World B) :
  CX control target w
  = (tt, mkWorld
           (__quantum__qis__h__body target
              (__quantum__qis__cz__body control target
                 (__quantum__qis__h__body target (backend w))))
           (calls w ++ CX_calls control target)).
Proof.
  unfold CX, CX_calls, h__body, cz__body. rewrite !bind_eq. cbn.
  now rewrite <- !app_assoc.
Qed.

Lemma MResetZ_run (qubit result : Z) (w : World B) :
  let r := __quantum__qis__read_result__body result
             (__quantum__qis__mresetz__body qubit result (backend w)) in
  MResetZ qubit result w
  = (fst r, mkWorld (snd r) (calls w ++ MResetZ_calls qubit result (fst r))).
Proof.
  unfold MResetZ, MResetZ_calls, read_result__body, mresetz__body.
  rewrite bind_eq. cbn.
  destruct (__quantum__qis__read_result__body _ _) as [v b]. cbn.
  now rewrite <- app_assoc.
Qed.

Lemma make_random_state_calls (w : World B) :
  calls (snd (make_random_state w)) = calls w ++ prepare_calls.
Proof.
  unfold make_random_state, prepare_calls.
  rewrite (for_each_calls (fun i => [qis_h i])) by reflexivity.
  reflexivity.
Qed.

Lemma record_all_calls (w : World B) :
  calls (record_all w) = calls w ++ record_calls.
Proof.
  unfold record_all, record_calls.
  rewrite (for_each_calls (fun i => [rt_result_record_output i 0]))
    by reflexivity.
  reflexivity.
Qed.

Lemma bits_read_length (l : list Z) :
  forall w : World B, length (bits_read l w) = length l.
Proof.
  induction l as [|i l IH]; intros w; cbn [bits_read]; [reflexivity|].
  pose proof (MResetZ_run i i w) as E; cbn zeta in E; rewrite E.
  cbn. now rewrite IH.
Qed.

(** The measuring loop over any index list, from any accumulator. *)
Lemma measure_loop_run (l : list Z) :
  forall (acc : Z) (w : World B),
    let r := for_fold l acc (fun result i =>
               bind (MResetZ i i)
                    (fun v => ret (Int.or result (Int.shl v i)))) w in
    fst r = accumulate_on l (bits_read l w) acc
    /\ calls (snd r) = calls w ++ measure_calls_on l (bits_read l w).
Proof.
  induction l as [|i l IH]; intros acc w; cbn zeta.
  - cbn. now rewrite app_nil_r.
  - cbn [for_fold bits_read]. rewrite !bind_eq.
    pose proof (MResetZ_run i i w) as E; cbn zeta in E; rewrite E.
    cbn [fst snd ret].
    specialize (IH (Int.or acc
      (Int.shl (fst (__quantum__qis__read_result__body i
                       (__quantum__qis__mresetz__body i i (backend w)))) i))
      (mkWorld (snd (__quantum__qis__read_result__body i
                       (__quantum__qis__mresetz__body i i (backend w))))
               (calls w ++ MResetZ_calls i i
                  (fst (__quantum__qis__read_result__body i
                       (__quantum__qis__mresetz__body i i (backend w))))))).
    cbn zeta in IH. destruct IH as [IHv IHc]. split.
    + rewrite IHv. reflexivity.
    + rewrite IHc. cbn [calls]. unfold measure_calls_on.
      cbn [combine flat_map]. now rewrite <- app_assoc.
Qed.

Lemma measure_as_int_run (w : World B) :
  fst (measure_as_int w) = accumulate (bits_read (upto 0 9) w)
  /\ calls (snd (measure_as_int w))
     = calls w ++ measure_calls (bits_read (upto 0 9) w).
Proof. exact (measure_loop_run (upto 0 9) 0 w). Qed.

Lemma attempt_bits_length (w : World B) : length (attempt_bits w) = 9%nat.
Proof. unfold attempt_bits. now rewrite bits_read_length. Qed.

Lemma attempt_run (w : World B) :
  fst (attempt w) = accumulate (attempt_bits w)
  /\ calls (snd (attempt w)) = calls w ++ attempt_calls (attempt_bits w).
Proof.
  unfold attempt, attempt_bits, attempt_calls. rewrite bind_eq.
  destruct (measure_as_int_run (snd (make_random_state w))) as [Hv Hc].
  split; [exact Hv|].
  rewrite Hc, make_random_state_calls. now rewrite <- app_assoc.
Qed.
End Traces.

(** The whole call log of [full_entangle]. *)
Lemma full_entangle_calls :
  forall (B : Type) (qisa : QISA B) (w : World B),
  exists v8 v7 v6 v5 v4 v3 v2 v1 v0 : Z,
    calls (snd (full_entangle w))
    = calls w ++
      [qis_h 0;
       qis_h 1; qis_cz 0 1; qis_h 1;
       qis_h 2; qis_cz 1 2; qis_h 2;
       qis_h 3; qis_cz 2 3; qis_h 3;
       qis_h 4; qis_cz 3 4; qis_h 4;
       qis_h 5; qis_cz 4 5; qis_h 5;
       qis_h 6; qis_cz 5 6; qis_h 6;
       qis_h 7; qis_cz 6 7; qis_h 7;
       qis_h 8; qis_cz 7 8; qis_h 8;
       qis_mresetz 8 8; qis_read_result 8 v8; rt_result_record_output 8 0;
       qis_mresetz 7 7; qis_read_result 7 v7; rt_result_record_output 7 0;
       qis_mresetz 6 6; qis_read_result 6 v6; rt_result_record_output 6 0;
       qis_mresetz 5 5; qis_read_result 5 v5; rt_result_record_output 5 0;
       qis_mresetz 4 4; qis_read_result 4 v4; rt_result_record_output 4 0;
       qis_mresetz 3 3; qis_read_result 3 v3; rt_result_record_output 3 0;
       qis_mresetz 2 2; qis_read_result 2 v2; rt_result_record_output 2 0;
       qis_mresetz 1 1; qis_read_result 1 v1; rt_result_record_output 1 0;
       qis_mresetz 0 0; qis_read_result 0 v0; rt_result_record_output 0 0].
Proof.
  intros B qisa w. unfold full_entangle. rewrite downto_8_0.
  cbn [for_each]. unfold H, RecordResult, h__body, result_record_output.
  repeat (rewrite bind_eq; try rewrite CX_run;
          try (rewrite MResetZ_run; cbn zeta); cbn [fst snd backend calls]).
  cbn [ret snd calls].
  repeat rewrite <- app_assoc. cbn [app CX_calls MResetZ_calls].
  repeat eexists.
Qed.

(** The whole run of [full_entangle]: the state the backend is left in and
    the call log, the logged read values being those the backend returned. *)
Lemma full_entangle_run :
  forall (B : Type) (qisa : QISA B) (w : World B),
    let gates :=
      fold_left (fun b '(c, t) =>
                   __quantum__qis__h__body t
                     (__quantum__qis__cz__body c t
                        (__quantum__qis__h__body t b)))
        [(0, 1); (1, 2); (2, 3); (3, 4); (4, 5); (5, 6); (6, 7); (7, 8)]
        (__quantum__qis__h__body 0 (backend w)) in
    let measure i b :=
      __quantum__qis__read_result__body i
        (__quantum__qis__mresetz__body i i b) in
    let record i b := __quantum__rt__result_record_output i 0 b in
    let r8 := measure 8 gates in
    let r7 := measure 7 (record 8 (snd r8)) in
    let r6 := measure 6 (record 7 (snd r7)) in
    let r5 := measure 5 (record 6 (snd r6)) in
    let r4 := measure 4 (record 5 (snd r5)) in
    let r3 := measure 3 (record 4 (snd r4)) in
    let r2 := measure 2 (record 3 (snd r3)) in
    let r1 := measure 1 (record 2 (snd r2)) in
    let r0 := measure 0 (record 1 (snd r1)) in
    full_entangle w
    = (tt,
       mkWorld (record 0 (snd r0))
         (calls w ++
          [qis_h 0;
           qis_h 1; qis_cz 0 1; qis_h 1;
           qis_h 2; qis_cz 1 2; qis_h 2;
           qis_h 3; qis_cz 2 3; qis_h 3;
           qis_h 4; qis_cz 3 4; qis_h 4;
           qis_h 5; qis_cz 4 5; qis_h 5;
           qis_h 6; qis_cz 5 6; qis_h 6;
           qis_h 7; qis_cz 6 7; qis_h 7;
           qis_h 8; qis_cz 7 8; qis_h 8;
           qis_mresetz 8 8; qis_read_result 8 (fst r8);
           rt_result_record_output 8 0;
           qis_mresetz 7 7; qis_read_result 7 (fst r7);
           rt_result_record_output 7 0;
           qis_mresetz 6 6; qis_read_result 6 (fst r6);
           rt_result_record_output 6 0;
           qis_mresetz 5 5; qis_read_result 5 (fst r5);
           rt_result_record_output 5 0;
           qis_mresetz 4 4; qis_read_result 4 (fst r4);
           rt_result_record_output 4 0;
           qis_mresetz 3 3; qis_read_result 3 (fst r3);
           rt_result_record_output 3 0;
           qis_mresetz 2 2; qis_read_result 2 (fst r2);
           rt_result_record_output 2 0;
           qis_mresetz 1 1; qis_read_result 1 (fst r1);
           rt_result_record_output 1 0;
           qis_mresetz 0 0; qis_read_result 0 (fst r0);
           rt_result_record_output 0 0])).
Proof.
  intros B qisa w. cbv zeta. unfold full_entangle. rewrite downto_8_0.
  cbn [for_each]. unfold H, RecordResult, h__body, result_record_output.
  repeat (rewrite bind_eq; try rewrite CX_run;
          try (rewrite MResetZ_run; cbn zeta); cbn [fst snd backend calls]).
  cbn [ret snd calls fold_left].
  repeat rewrite <- app_assoc. cbn [app CX_calls MResetZ_calls].
  reflexivity.
Qed.

(** ** The rejection-sampling loop, for any backend *)

Section Loop.

Context {B : Type} {qisa : QISA B}.

Lemma while_exit (fuel : nat) (result : Z) (w : World B) :
  500 <= result -> while_result_lt_500 fuel result w = (Some result, w).
Proof.
  intros Hr. destruct fuel; cbn [while_result_lt_500]; unfold Int.lt;
    destruct (Z.ltb_spec result 500); try lia; reflexivity.
Qed.

Lemma while_step (fuel : nat) (result : Z) (w : World B) :
  result < 500 ->
  while_result_lt_500 (S fuel) result w
  = while_result_lt_500 fuel (fst (attempt w)) (snd (attempt w)).
Proof.
  intros Hr. cbn [while_result_lt_500]. unfold Int.lt.
  destruct (Z.ltb_spec result 500); [|lia].
  unfold attempt. rewrite bind_eq.
  destruct (make_random_state w) as [u w1]. cbn [fst snd].
  now destruct (measure_as_int w1).
Qed.

Lemma world_after_S (k : nat) :
  forall w : World B, world_after (S k) w = snd (attempt (world_after k w)).
Proof.
  induction k as [|k IH]; intros w; [reflexivity|].
  change (world_after (S (S k)) w) with (world_after (S k) (snd (attempt w))).
  now rewrite IH.
Qed.

Lemma accumulator_of_S (k : nat) (w : World B) :
  accumulator_of (S k) w = accumulator_of k (snd (attempt w)).
Proof. unfold accumulator_of. cbn [world_after]. reflexivity. Qed.

Lemma accumulator_of_0 (w : World B) : accumulator_of 0 w = fst (attempt w).
Proof. reflexivity. Qed.

Lemma first_accepted_shift (k : nat) (w : World B) :
  first_accepted (S k) w -> first_accepted k (snd (attempt w)).
Proof.
  intros [Hlt Hge]. split.
  - intros j Hj. rewrite <- accumulator_of_S. apply Hlt. lia.
  - rewrite <- accumulator_of_S. exact Hge.
Qed.

Lemma while_accepts (k : nat) :
  forall (result : Z) (w : World B) (fuel : nat),
    result < 500 -> first_accepted k w -> (k < fuel)%nat ->
    while_result_lt_500 fuel result w
    = (Some (accumulator_of k w), world_after (S k) w).
Proof.
  induction k as [|k IH]; intros result w fuel Hr Hk Hf;
    (destruct fuel as [|fuel]; [lia|]); rewrite while_step by exact Hr.
  - destruct Hk as [_ Hge]. rewrite accumulator_of_0 in Hge.
    rewrite accumulator_of_0, world_after_S. now apply while_exit.
  - rewrite accumulator_of_S.
    change (world_after (S (S k)) w)
      with (world_after (S k) (snd (attempt w))).
    apply (IH (fst (attempt w)) (snd (attempt w)) fuel).
    + destruct Hk as [Hlt _]. rewrite <- accumulator_of_0. apply Hlt. lia.
    + now apply first_accepted_shift.
    + lia.
Qed.

Lemma while_exhausts (fuel : nat) :
  forall (result : Z) (w : World B),
    result < 500 ->
    (forall j, (j < fuel)%nat -> accumulator_of j w < 500) ->
    while_result_lt_500 fuel result w = (None, world_after fuel w).
Proof.
  induction fuel as [|fuel IH]; intros result w Hr Hall.
  - cbn. unfold Int.lt. destruct (Z.ltb_spec result 500); [reflexivity|lia].
  - rewrite while_step by exact Hr.
    change (world_after (S fuel) w) with (world_after fuel (snd (attempt w))).
    apply (IH (fst (attempt w)) (snd (attempt w))).
    + rewrite <- accumulator_of_0. apply Hall. lia.
    + intros j Hj. rewrite <- accumulator_of_S. apply Hall. lia.
Qed.

(** Within any fuel, either some iteration is the first accepted one or
    every iteration is rejected. *)
Lemma first_accepted_within (fuel : nat) (w : World B) :
  (exists k, (k < fuel)%nat /\ first_accepted k w)
  \/ (forall j, (j < fuel)%nat -> accumulator_of j w < 500).
Proof.
  induction fuel as [|fuel [(k & Hk & Hf) | Hall]].
  - right. intros j Hj. lia.
  - left. exists k. split; [lia | exact Hf].
  - destruct (Z_lt_le_dec (accumulator_of fuel w) 500) as [Hlt | Hge].
    + right. intros j Hj.
      destruct (Nat.eq_dec j fuel) as [-> | Hne]; [exact Hlt|].
      apply Hall. lia.
    + left. exists fuel. split; [lia|]. split; assumption.
Qed.

Lemma random_numbers_over_500_accepts (k fuel : nat) (w : World B) :
  first_accepted k w -> (k < fuel)%nat ->
  random_numbers_over_500 fuel w = (Some tt, record_all (world_after (S k) w)).
Proof.
  intros Hk Hf. unfold random_numbers_over_500.
  rewrite (while_accepts k 0 w fuel) by (assumption || lia). reflexivity.
Qed.

Lemma random_numbers_over_500_exhausts (fuel : nat) (w : World B) :
  (forall j, (j < fuel)%nat -> accumulator_of j w < 500) ->
  random_numbers_over_500 fuel w = (None, world_after fuel w).
Proof.
  intros Hall. unfold random_numbers_over_500.
  rewrite (while_exhausts fuel 0 w) by (assumption || lia). reflexivity.
Qed.

Lemma accumulator_of_bits (k : nat) (w : World B) :
  accumulator_of k w = accumulate (attempt_bits (world_after k w)).
Proof. unfold accumulator_of. apply attempt_run. Qed.

Lemma attempts_S (k : nat) (w : World B) :
  attempts (S k) w = attempts k w ++ [attempt_bits (world_after k w)].
Proof. unfold attempts. now rewrite seq_S, map_app. Qed.

Lemma attempts_length (k : nat) (w : World B) : length (attempts k w) = k.
Proof. unfold attempts. now rewrite length_map, length_seq. Qed.

Lemma attempts_nine (k : nat) (w : World B) :
  Forall (fun bits => length bits = 9%nat) (attempts k w).
Proof.
  unfold attempts. apply Forall_forall. intros bits Hin.
  apply in_map_iff in Hin. destruct Hin as (j & <- & _).
  apply attempt_bits_length.
Qed.

Lemma world_after_calls (k : nat) (w : World B) :
  calls (world_after k w) = calls w ++ flat_map attempt_calls (attempts k w).
Proof.
  induction k as [|k IH].
  - cbn. now rewrite app_nil_r.
  - rewrite world_after_S, attempts_S, flat_map_app.
    destruct (attempt_run (world_after k w)) as [_ Hc].
    rewrite Hc, IH. cbn [flat_map]. now rewrite app_nil_r, app_assoc.
Qed.

(** Rejected iterations, by their bits. *)
Lemma attempts_rejected (k : nat) (w : World B) :
  (forall j, (j < k)%nat -> accumulator_of j w < 500) ->
  Forall (fun bits => accumulate bits < 500) (attempts k w).
Proof.
  intros Hall. unfold attempts. apply Forall_forall. intros bits Hin.
  apply in_map_iff in Hin. destruct Hin as (j & <- & Hj).
  apply in_seq in Hj. rewrite <- accumulator_of_bits. apply Hall. lia.
Qed.

End Loop.

(** ** Whole runs of the rejection-sampling program *)

Section Runs.

Context {B : Type} {qisa : QISA B}.

(** A run either stops after its first accepted iteration and records, or
    uses up its fuel on rejected iterations. *)
Lemma run_cases (fuel : nat) (w : World B) :
  (exists k, (k < fuel)%nat /\ first_accepted k w
     /\ random_numbers_over_500 fuel w
        = (Some tt, record_all (world_after (S k) w)))
  \/ ((forall j, (j < fuel)%nat -> accumulator_of j w < 500)
      /\ random_numbers_over_500 fuel w = (None, world_after fuel w)).
Proof.
  destruct (first_accepted_within fuel w) as [(k & Hk & Hf) | Hall].
  - left. exists k. split; [exact Hk|]. split; [exact Hf|].
    now apply random_numbers_over_500_accepts.
  - right. split; [exact Hall|].
    now apply random_numbers_over_500_exhausts.
Qed.

Lemma accepted_run_calls (k : nat) (w : World B) :
  calls (record_all (world_after (S k) w))
  = calls w ++ flat_map attempt_calls (attempts k w)
    ++ attempt_calls (attempt_bits (world_after k w)) ++ record_calls.
Proof.
  rewrite record_all_calls, world_after_calls, attempts_S, flat_map_app.
  cbn [flat_map]. now rewrite app_nil_r, <- !app_assoc.
Qed.
Lemma attempts_nth (j n : nat) (w : World B) :
  (j < n)%nat -> nth j (attempts n w) [] = attempt_bits (world_after j w).
Proof.
  intros Hj. unfold attempts.
  rewrite (nth_indep _ [] (attempt_bits (world_after 0 w)))
    by now rewrite length_map, length_seq.
  rewrite (map_nth (fun j => attempt_bits (world_after j w))).
  now rewrite seq_nth.
Qed.

(** The shape of any run, returned or cut short by the fuel: [n] whole
    iterations, then the records when it returned. *)
Lemma run_summary (fuel : nat) (w : World B) :
  let r := random_numbers_over_500 fuel w in
  exists n,
    calls (snd r)
    = calls w ++ flat_map attempt_calls (attempts n w)
      ++ (if fst r is Some _ then record_calls else [])
    /\ match fst r with
       | Some _ => exists k, n = S k /\ 500 <= accumulator_of k w
                             /\ snd r = record_all (world_after (S k) w)
       | None => (forall j, (j < n)%nat -> accumulator_of j w < 500)
                 /\ snd r = world_after n w
       end.
Proof.
  cbn zeta.
  destruct (run_cases fuel w) as [(k & _ & [_ Hge] & E) | [Hall E]];
    rewrite E; cbn [fst snd].
  - exists (S k). split.
    + rewrite accepted_run_calls, attempts_S, flat_map_app. cbn [flat_map].
      now rewrite app_nil_r, <- !app_assoc.
    + exists k. repeat split. exact Hge.
  - exists fuel. split.
    + now rewrite world_after_calls, app_nil_r.
    + split; [exact Hall | reflexivity].
Qed.

End Runs.

Lemma run_calls_forallb {B : Type} {qisa : QISA B} (P : intrinsic -> bool)
    (fuel : nat) (b : B) :
  forallb P prepare_calls = true ->
  (forall i v, P (qis_mresetz i i) = true /\ P (qis_read_result i v) = true) ->
  forallb P record_calls = true ->
  forallb P (calls (snd (random_numbers_over_500 fuel (init b)))) = true.
Proof.
  intros Hp HP Hr.
  destruct (run_cases fuel (init b)) as [(k & _ & _ & E) | [_ E]];
    rewrite E; cbn [snd].
  - rewrite accepted_run_calls. cbn [init calls app].
    now rewrite !forallb_app, Hr, attempts_calls_forallb,
      attempt_calls_forallb.
  - rewrite world_after_calls. cbn [init calls app].
    now apply attempts_calls_forallb.
Qed.

Lemma main_calls_sampling_operations {B : Type} {qisa : QISA B}
    (fuel : nat) (b : B) :
  forallb sampling_operation (calls (snd (ENTRYPOINT__main fuel (init b))))
  = true.
Proof.
  unfold ENTRYPOINT__main. apply run_calls_forallb; try reflexivity.
  intros i v. split; reflexivity.
Qed.

Lemma calls_operation_sampling (op : operation) (tr : list intrinsic) :
  forallb sampling_operation tr = true ->
  calls_operation op tr = true ->
  op = apply_H \/ op = measure_and_reset \/ op = read_bit
  \/ op = record_scalar_output.
Proof.
  intros Hall Hop. apply existsb_exists in Hop. destruct Hop as (e & Hin & He).
  rewrite forallb_forall in Hall. specialize (Hall e Hin).
  destruct e, op; cbn in Hall, He; try discriminate; tauto.
Qed.

Lemma called_by_main_sampling (op : operation) :
  called_by_main op ->
  op = apply_H \/ op = measure_and_reset \/ op = read_bit
  \/ op = record_scalar_output.
Proof.
  intros (B & qisa & b & fuel & Hop).
  exact (calls_operation_sampling op _
           (main_calls_sampling_operations fuel b) Hop).
Qed.

(** ** Slots and the output stream, for a backend that keeps the contract *)

Section Recorded.

Context {B : Type} {qisa : QISA B} {contract : Contract B}.

Lemma for_each_keeps {X : Type} (obs : World B -> X) (body : Z -> M unit) :
  (forall i (w : World B), obs (snd (body i w)) = obs w) ->
  forall l (w : World B), obs (snd (for_each l body w)) = obs w.
Proof.
  intros Hbody l; induction l as [|i l IH]; intros w; [reflexivity|].
  now rewrite for_each_cons, IH, Hbody.
Qed.

Lemma make_random_state_output (w : World B) :
  output (backend (snd (make_random_state w))) = output (backend w).
Proof.
  unfold make_random_state.
  apply (for_each_keeps (fun w => output (backend w))).
  intros i w0. cbn. apply h_keeps_output.
Qed.

(** The measuring loop over distinct indices leaves in slot [i] the bit it
    read for [i], touches no other slot and records nothing. *)
Lemma measure_loop_stored (l : list Z) :
  NoDup l ->
  forall (acc : Z) (w : World B),
    let w' := snd (for_fold l acc (fun result i =>
                bind (MResetZ i i)
                     (fun v => ret (Int.or result (Int.shl v i)))) w) in
    Forall is_bit (bits_read l w)
    /\ output (backend w') = output (backend w)
    /\ Forall2 (fun i v => stored (backend w') i = v) l (bits_read l w)
    /\ (forall r, ~ In r l -> stored (backend w') r = stored (backend w) r).
Proof.
  induction 1 as [|i l Hnin Hnd IH]; intros acc w; cbn zeta.
  - cbn. repeat split; constructor.
  - cbn [for_fold bits_read]. rewrite !bind_eq.
    pose proof (MResetZ_run i i w) as E; cbn zeta in E; rewrite E; clear E.
    cbn [fst snd ret].
    set (m := __quantum__qis__mresetz__body i i (backend w)).
    set (v := fst (__quantum__qis__read_result__body i m)).
    set (w1 := mkWorld (snd (__quantum__qis__read_result__body i m))
                       (calls w ++ MResetZ_calls i i v)).
    destruct (IH (Int.or acc (Int.shl v i)) w1) as (Hb & Ho & Hs & Hr).
    repeat split.
    + constructor; [apply read_is_bit | exact Hb].
    + rewrite Ho. subst w1; cbn [backend].
      now rewrite read_keeps_output; subst m; rewrite mresetz_keeps_output.
    + constructor; [|exact Hs].
      rewrite (Hr i Hnin). subst w1 v; cbn [backend].
      now rewrite read_keeps_slots, read_is_stored.
    + intros r Hr'. cbn [In] in Hr'.
      rewrite Hr by tauto. subst w1 m; cbn [backend].
      rewrite read_keeps_slots. apply mresetz_keeps_other_slots.
      intros ->. tauto.
Qed.

Lemma upto_0_9_NoDup : NoDup (upto 0 9).
Proof.
  rewrite upto_0_9.
  repeat (constructor; [cbn [In]; intuition discriminate|]). constructor.
Qed.

(** One Sampling iteration: nothing recorded, nine bits read, each left in
    the slot numbered like its qubit. *)
Lemma attempt_stored (w : World B) :
  Forall is_bit (attempt_bits w)
  /\ output (backend (snd (attempt w))) = output (backend w)
  /\ Forall2 (fun i v => stored (backend (snd (attempt w))) i = v)
             (upto 0 9) (attempt_bits w).
Proof.
  unfold attempt, attempt_bits. rewrite bind_eq.
  destruct (measure_loop_stored (upto 0 9) upto_0_9_NoDup 0
              (snd (make_random_state w))) as (Hb & Ho & Hs & _).
  cbn zeta in Ho, Hs. repeat split; [exact Hb | | exact Hs].
  unfold measure_as_int. rewrite Ho. apply make_random_state_output.
Qed.

Lemma world_after_output (k : nat) (w : World B) :
  output (backend (world_after k w)) = output (backend w).
Proof.
  induction k as [|k IH]; [reflexivity|].
  rewrite world_after_S. destruct (attempt_stored (world_after k w)) as (_ & Ho & _).
  now rewrite Ho.
Qed.

Lemma record_loop_output (l : list Z) :
  forall w : World B,
    output (backend (snd (for_each l RecordResult w)))
    = output (backend w)
      ++ map (fun i => result_entry i (stored (backend w) i) 0) l.
Proof.
  induction l as [|i l IH]; intros w.
  - cbn. now rewrite app_nil_r.
  - rewrite for_each_cons, IH. cbn [map].
    unfold RecordResult, result_record_output. cbn [snd backend].
    rewrite record_appends, <- app_assoc. cbn [app]. do 2 f_equal.
    apply map_ext. intros r. now rewrite record_keeps_slots.
Qed.

(** What is recorded after an iteration: that iteration's bits, slot 8
    first. *)
Lemma record_all_after_attempt (w : World B) :
  output (backend (record_all (snd (attempt w))))
  = output (backend w) ++ records_of (attempt_bits w).
Proof.
  unfold record_all. rewrite record_loop_output.
  destruct (attempt_stored w) as (_ & Ho & Hs). rewrite Ho. f_equal.
  pose proof (attempt_bits_length w) as Hl.
  destruct (length_nine _ Hl)
    as (a0 & a1 & a2 & a3 & a4 & a5 & a6 & a7 & a8 & Hbits).
  rewrite Hbits in Hs |- *. rewrite upto_0_9 in Hs.
  repeat match goal with
         | Hf : Forall2 _ (_ :: _) (_ :: _) |- _ =>
             apply Forall2_cons_iff in Hf; destruct Hf as [<- Hf]
         end.
  reflexivity.
Qed.

End Recorded.

(** ** The scripted backend *)

Lemma scripted_attempt_rejected (w : World Scripted) (rest : list bool) :
  script (backend w) = repeat false 9 ++ rest ->
  fst (attempt w) = 0 /\ script (backend (snd (attempt w))) = rest.
Proof.
  destruct w as [[sc sl rc] cs]. cbn [backend script]. intros ->.
  split; reflexivity.
Qed.

Lemma scripted_attempt_accepted (w : World Scripted) (rest : list bool) :
  script (backend w) = repeat true 9 ++ rest -> fst (attempt w) = 511.
Proof.
  destruct w as [[sc sl rc] cs]. cbn [backend script]. intros ->.
  reflexivity.
Qed.

(** A script of [n] all-zero rounds and then nine ones is accepted at
    iteration [n] and not before. *)
Lemma scripted_first_accepted (n : nat) :
  forall w : World Scripted,
    script (backend w) = repeat false (9 * n) ++ repeat true 9 ->
    first_accepted n w.
Proof.
  induction n as [|n IH]; intros w Hs.
  - split; [intros j Hj; lia|].
    rewrite accumulator_of_0, (scripted_attempt_accepted w []); [lia|].
    rewrite Hs. reflexivity.
  - replace (9 * S n)%nat with (9 + 9 * n)%nat in Hs by lia.
    rewrite repeat_app, <- app_assoc in Hs.
    destruct (scripted_attempt_rejected w _ Hs) as [H0 Hrest].
    destruct (IH _ Hrest) as [Hlt Hge]. split.
    + intros [|j] Hj.
      * rewrite accumulator_of_0, H0. lia.
      * rewrite accumulator_of_S. apply Hlt. lia.
    + rewrite accumulator_of_S. exact Hge.
Qed.

(** * The claims *)

(** C1: for every run of random_numbers_over_500 that returns, on a backend
    whose read-bit returns only 0 or 1 and returns the value last stored in
    the slot (the contract), the run appends to the output stream exactly
    nine entries, for the slots 8, 7, ..., 0 in this order, and their bits,
    read with slot 8 most significant, are a number from 500 to 511. *)
Theorem recorded_number_500_to_511 :
  forall (B : Type) (qisa : QISA B) (contract : Contract B)
         (fuel : nat) (w w' : World B),
    random_numbers_over_500 fuel w = (Some tt, w') ->
    exists v8 v7 v6 v5 v4 v3 v2 v1 v0 : Z,
      output (backend w')
      = output (backend w) ++
        [result_entry 8 v8 0; result_entry 7 v7 0; result_entry 6 v6 0;
         result_entry 5 v5 0; result_entry 4 v4 0; result_entry 3 v3 0;
         result_entry 2 v2 0; result_entry 1 v1 0; result_entry 0 v0 0]
      /\ Forall is_bit [v8; v7; v6; v5; v4; v3; v2; v1; v0]
      /\ 500 <= decode_msb_first [v8; v7; v6; v5; v4; v3; v2; v1; v0] <= 511.
Proof.
  intros B qisa contract fuel w w' Hrun.
  destruct (run_cases fuel w) as [(k & _ & [_ Hge] & E) | [_ E]];
    rewrite E in Hrun; [|discriminate Hrun].
  replace w' with (record_all (world_after (S k) w)) by congruence.
  rewrite world_after_S, record_all_after_attempt, world_after_output.
  rewrite accumulator_of_bits in Hge.
  destruct (attempt_stored (world_after k w)) as (Hb & _ & _).
  pose proof (attempt_bits_length (world_after k w)) as Hl.
  pose proof (decode_rev_accumulate _ Hl Hb) as Hd.
  pose proof (accumulate_bits _ Hl Hb) as [_ Hr].
  destruct (length_nine _ Hl)
    as (a0 & a1 & a2 & a3 & a4 & a5 & a6 & a7 & a8 & Hbits).
  rewrite Hbits in Hb, Hd, Hr, Hge |- *.
  exists a8, a7, a6, a5, a4, a3, a2, a1, a0.
  split; [reflexivity|]. split.
  - apply Forall_rev in Hb. exact Hb.
  - cbn [rev app] in Hd. rewrite Hd. lia.
Qed.

Lemma recorded_number_500_to_511_witness :
  exists v8 v7 v6 v5 v4 v3 v2 v1 v0 : Z,
    output (backend (snd run_256_500))
    = output (backend (init (scripted script_256_500))) ++
      [result_entry 8 v8 0; result_entry 7 v7 0; result_entry 6 v6 0;
       result_entry 5 v5 0; result_entry 4 v4 0; result_entry 3 v3 0;
       result_entry 2 v2 0; result_entry 1 v1 0; result_entry 0 v0 0]
    /\ Forall is_bit [v8; v7; v6; v5; v4; v3; v2; v1; v0]
    /\ 500 <= decode_msb_first [v8; v7; v6; v5; v4; v3; v2; v1; v0] <= 511.
Proof.
  apply (recorded_number_500_to_511 Scripted _ _ 3
           (init (scripted script_256_500)) (snd run_256_500)).
  vm_compute. reflexivity.
Defined.

(** C2: in every run of random_numbers_over_500, whatever precedes a
    RecordResult call is made of whole Sampling iterations whose accumulators
    are below 500, then one whole iteration whose accumulator is at least
    500, then record calls only; no iteration contains a record call.  So no
    record call falls in or between rejected iterations, and the run that
    records has left the loop.  On a backend keeping the contract what the
    run records are the bits of that accepted iteration, none of a rejected
    one. *)
Theorem no_record_before_accepted_iteration :
  forall (B : Type) (qisa : QISA B) (fuel : nat) (w : World B)
         (pre post : list intrinsic) (rid label : Z),
    calls (snd (random_numbers_over_500 fuel w))
    = calls w ++ pre ++ rt_result_record_output rid label :: post ->
    fst (random_numbers_over_500 fuel w) = Some tt
    /\ exists (rejected : list (list Z)) (accepted : list Z)
              (recs : list intrinsic),
         pre = flat_map attempt_calls rejected ++ attempt_calls accepted ++ recs
         /\ Forall (fun bits => length bits = 9%nat) rejected
         /\ Forall (fun bits => accumulate bits < 500) rejected
         /\ length accepted = 9%nat
         /\ 500 <= accumulate accepted
         /\ existsb is_record
              (flat_map attempt_calls rejected ++ attempt_calls accepted)
            = false
         /\ forallb is_record recs = true
         /\ (forall contract : Contract B,
               output (backend (snd (random_numbers_over_500 fuel w)))
               = output (backend w) ++ records_of accepted).
Proof.
  intros B qisa fuel w pre post rid label Hc.
  destruct (run_cases fuel w) as [(k & _ & [Hlt Hge] & E) | [_ E]];
    rewrite E in Hc |- *; cbn [fst snd] in Hc |- *.
  - split; [reflexivity|].
    rewrite accepted_run_calls in Hc. apply app_inv_head in Hc.
    rewrite app_assoc in Hc.
    assert (Hno : existsb is_record
                    (flat_map attempt_calls (attempts k w)
                     ++ attempt_calls (attempt_bits (world_after k w)))
                  = false)
      by now rewrite existsb_app, attempts_calls_no_record,
           attempt_calls_no_record.
    destruct (first_record_split _ _ pre post
                (rt_result_record_output rid label) Hno eq_refl (eq_sym Hc))
      as (recs & Hpre & Hrecs).
    exists (attempts k w), (attempt_bits (world_after k w)), recs.
    split; [now rewrite Hpre, <- app_assoc|].
    split; [apply attempts_nine|].
    split; [now apply attempts_rejected|].
    split; [apply attempt_bits_length|].
    split; [now rewrite <- accumulator_of_bits|].
    split; [exact Hno|].
    split.
    + assert (Hall : forallb is_record record_calls = true) by reflexivity.
      rewrite Hrecs, forallb_app in Hall.
      now apply andb_true_iff in Hall.
    + intros contract.
      now rewrite world_after_S, record_all_after_attempt, world_after_output.
  - exfalso. rewrite world_after_calls in Hc. apply app_inv_head in Hc.
    rewrite <- (app_nil_r (flat_map _ _)) in Hc.
    destruct (first_record_split _ _ pre post
                (rt_result_record_output rid label)
                (attempts_calls_no_record (attempts fuel w)) eq_refl
                (eq_sym Hc)) as (recs & _ & Hnil).
    now destruct recs.
Qed.

Lemma no_record_before_accepted_iteration_witness :
  fst run_256_500 = Some tt
  /\ exists (rejected : list (list Z)) (accepted : list Z)
            (recs : list intrinsic),
       firstn 54 (calls (snd run_256_500))
       = flat_map attempt_calls rejected ++ attempt_calls accepted ++ recs
       /\ Forall (fun bits => length bits = 9%nat) rejected
       /\ Forall (fun bits => accumulate bits < 500) rejected
       /\ length accepted = 9%nat
       /\ 500 <= accumulate accepted
       /\ existsb is_record
            (flat_map attempt_calls rejected ++ attempt_calls accepted)
          = false
       /\ forallb is_record recs = true
       /\ (forall contract : Contract Scripted,
             output (backend (snd run_256_500))
             = output (backend (init (scripted script_256_500)))
               ++ records_of accepted).
Proof.
  apply (no_record_before_accepted_iteration Scripted _ 3
           (init (scripted script_256_500))
           (firstn 54 (calls (snd run_256_500)))
           (skipn 55 (calls (snd run_256_500))) 8 0).
  vm_compute. reflexivity.
Defined.

(** C3: for every pair of integers (c, t), a call CX(c, t) issues exactly
    three intrinsic calls, in this order: apply-H on t, apply-controlled-phase
    on (c, t), apply-H on t; the backend goes through those three
    operations and no other. *)
Theorem CX_three_call_trace :
  forall (B : Type) (qisa : QISA B) (c t : Z) (w : World B),
    calls (snd (CX c t w)) = calls w ++ [qis_h t; qis_cz c t; qis_h t]
    /\ backend (snd (CX c t w))
       = __quantum__qis__h__body t
           (__quantum__qis__cz__body c t
              (__quantum__qis__h__body t (backend w))).
Proof.
  intros B qisa c t w. rewrite CX_run. split; reflexivity.
Qed.



(** C5: the loop has no iteration cap.  For every backend, the run returns
    (with enough fuel) if and only if some iteration's accumulator is at
    least 500; when iteration k is the first such one, every fuel above k
    gives the run that performs exactly the iterations 0..k and then records,
    and no smaller fuel lets it return: iteration k runs exactly when all
    earlier accumulators were below 500.  As long as every accumulator so
    far is below 500 the loop goes on, whatever the number of iterations.
    And for every n some backend makes iteration n the first accepted
    one. *)
Theorem unbounded_retry :
  (forall (B : Type) (qisa : QISA B) (w : World B),
      ((exists fuel, fst (random_numbers_over_500 fuel w) = Some tt)
       <-> (exists k, 500 <= accumulator_of k w))
      /\ (forall k, first_accepted k w ->
            forall fuel,
              ((k < fuel)%nat ->
               random_numbers_over_500 fuel w
               = (Some tt, record_all (world_after (S k) w)))
              /\ ((fuel <= k)%nat ->
                  random_numbers_over_500 fuel w
                  = (None, world_after fuel w)))
      /\ (forall fuel,
            (forall j, (j < fuel)%nat -> accumulator_of j w < 500) ->
            random_numbers_over_500 fuel w = (None, world_after fuel w)))
  /\ (forall n, exists bits, first_accepted n (init (scripted bits))).
Proof.
  split.
  - intros B qisa w. split; [split|split].
    + intros (fuel & Hdone).
      destruct (run_cases fuel w) as [(k & _ & [_ Hge] & _) | [_ E]].
      * now exists k.
      * rewrite E in Hdone. discriminate Hdone.
    + intros (k & Hge).
      destruct (first_accepted_within (S k) w) as [(k' & Hk' & Hf) | Hall].
      * exists (S k').
        now rewrite (random_numbers_over_500_accepts k' (S k') w Hf
                       (Nat.lt_succ_diag_r k')).
      * specialize (Hall k). lia.
    + intros k Hf fuel. split; intros Hk.
      * now apply random_numbers_over_500_accepts.
      * apply random_numbers_over_500_exhausts.
        intros j Hj. apply Hf. lia.
    + intros fuel Hall. now apply random_numbers_over_500_exhausts.
  - intros n. exists (repeat false (9 * n) ++ repeat true 9).
    now apply scripted_first_accepted.
Qed.

(** C6: one run of full_entangle issues exactly these calls: apply-H on
    qubit 0; the eight decompositions CX(i, i+1) for i = 0..7 in increasing
    order (24 gate calls); then, for each qubit i = 8, 7, ..., 0 in
    decreasing order, the measurement MResetZ(i, i) (its measure-and-reset of
    qubit i into slot i and its read of that slot) immediately followed by
    the record of slot i.  The calls are made on the backend: it is left in
    the state these operations produce, in this order, from the state the
    run found, and each logged read value is the one the backend returned at
    that point.  The third equation spells the calls out one by one. *)
Theorem full_entangle_trace :
  forall (B : Type) (qisa : QISA B) (w : World B),
    let gates :=
      fold_left (fun b '(c, t) =>
                   __quantum__qis__h__body t
                     (__quantum__qis__cz__body c t
                        (__quantum__qis__h__body t b)))
        [(0, 1); (1, 2); (2, 3); (3, 4); (4, 5); (5, 6); (6, 7); (7, 8)]
        (__quantum__qis__h__body 0 (backend w)) in
    let measure i b :=
      __quantum__qis__read_result__body i
        (__quantum__qis__mresetz__body i i b) in
    let record i b := __quantum__rt__result_record_output i 0 b in
    let r8 := measure 8 gates in
    let r7 := measure 7 (record 8 (snd r8)) in
    let r6 := measure 6 (record 7 (snd r7)) in
    let r5 := measure 5 (record 6 (snd r6)) in
    let r4 := measure 4 (record 5 (snd r5)) in
    let r3 := measure 3 (record 4 (snd r4)) in
    let r2 := measure 2 (record 3 (snd r3)) in
    let r1 := measure 1 (record 2 (snd r2)) in
    let r0 := measure 0 (record 1 (snd r1)) in
    let v8 := fst r8 in let v7 := fst r7 in let v6 := fst r6 in
    let v5 := fst r5 in let v4 := fst r4 in let v3 := fst r3 in
    let v2 := fst r2 in let v1 := fst r1 in let v0 := fst r0 in
    calls (snd (full_entangle w))
    = calls w ++ [qis_h 0]
      ++ (CX_calls 0 1 ++ CX_calls 1 2 ++ CX_calls 2 3 ++ CX_calls 3 4
          ++ CX_calls 4 5 ++ CX_calls 5 6 ++ CX_calls 6 7 ++ CX_calls 7 8)
      ++ (MResetZ_calls 8 8 v8 ++ [rt_result_record_output 8 0])
      ++ (MResetZ_calls 7 7 v7 ++ [rt_result_record_output 7 0])
      ++ (MResetZ_calls 6 6 v6 ++ [rt_result_record_output 6 0])
      ++ (MResetZ_calls 5 5 v5 ++ [rt_result_record_output 5 0])
      ++ (MResetZ_calls 4 4 v4 ++ [rt_result_record_output 4 0])
      ++ (MResetZ_calls 3 3 v3 ++ [rt_result_record_output 3 0])
      ++ (MResetZ_calls 2 2 v2 ++ [rt_result_record_output 2 0])
      ++ (MResetZ_calls 1 1 v1 ++ [rt_result_record_output 1 0])
      ++ (MResetZ_calls 0 0 v0 ++ [rt_result_record_output 0 0])
    /\ length (CX_calls 0 1 ++ CX_calls 1 2 ++ CX_calls 2 3 ++ CX_calls 3 4
               ++ CX_calls 4 5 ++ CX_calls 5 6 ++ CX_calls 6 7
               ++ CX_calls 7 8) = 24%nat
    /\ calls (snd (full_entangle w))
       = calls w ++
         [qis_h 0;
          qis_h 1; qis_cz 0 1; qis_h 1;
          qis_h 2; qis_cz 1 2; qis_h 2;
          qis_h 3; qis_cz 2 3; qis_h 3;
          qis_h 4; qis_cz 3 4; qis_h 4;
          qis_h 5; qis_cz 4 5; qis_h 5;
          qis_h 6; qis_cz 5 6; qis_h 6;
          qis_h 7; qis_cz 6 7; qis_h 7;
          qis_h 8; qis_cz 7 8; qis_h 8;
          qis_mresetz 8 8; qis_read_result 8 v8; rt_result_record_output 8 0;
          qis_mresetz 7 7; qis_read_result 7 v7; rt_result_record_output 7 0;
          qis_mresetz 6 6; qis_read_result 6 v6; rt_result_record_output 6 0;
          qis_mresetz 5 5; qis_read_result 5 v5; rt_result_record_output 5 0;
          qis_mresetz 4 4; qis_read_result 4 v4; rt_result_record_output 4 0;
          qis_mresetz 3 3; qis_read_result 3 v3; rt_result_record_output 3 0;
          qis_mresetz 2 2; qis_read_result 2 v2; rt_result_record_output 2 0;
          qis_mresetz 1 1; qis_read_result 1 v1; rt_result_record_output 1 0;
          qis_mresetz 0 0; qis_read_result 0 v0; rt_result_record_output 0 0]
    /\ backend (snd (full_entangle w)) = record 0 (snd r0).
Proof.
  intros B qisa w. cbv zeta.
  pose proof (full_entangle_run B qisa w) as E. cbv zeta in E. rewrite E.
  cbn [snd calls backend]. repeat split; reflexivity.
Qed.

(** C7: on a backend keeping the contract whose answers make the first
    Sampling attempt accumulate 256 and the second 500, a run (with fuel for
    two iterations or more) returns after exactly two full iterations: its
    calls are those of an attempt reading 256, of an attempt reading 500 and
    of the nine records, 18 measure-and-reset calls in all, and the entries
    it records are the second attempt's bits, slot 8 first. *)
Theorem two_attempts_256_then_500 :
  forall (B : Type) (qisa : QISA B) (contract : Contract B)
         (fuel : nat) (w : World B),
    accumulator_of 0 w = 256 -> accumulator_of 1 w = 500 -> (2 <= fuel)%nat ->
    random_numbers_over_500 fuel w = (Some tt, record_all (world_after 2 w))
    /\ (exists d,
          calls (record_all (world_after 2 w)) = calls w ++ d
          /\ d = attempt_calls [0; 0; 0; 0; 0; 0; 0; 0; 1]
                 ++ attempt_calls [0; 0; 1; 0; 1; 1; 1; 1; 1]
                 ++ record_calls
          /\ length (filter is_mresetz d) = 18%nat)
    /\ output (backend (record_all (world_after 2 w)))
       = output (backend w) ++
         [result_entry 8 1 0; result_entry 7 1 0; result_entry 6 1 0;
          result_entry 5 1 0; result_entry 4 1 0; result_entry 3 0 0;
          result_entry 2 1 0; result_entry 1 0 0; result_entry 0 0 0].
Proof.
  intros B qisa contract fuel w H0 H1 Hfuel.
  assert (Hf : first_accepted 1 w).
  { split; [|lia]. intros j Hj. replace j with 0%nat by lia. lia. }
  rewrite accumulator_of_bits in H0, H1.
  destruct (attempt_stored (world_after 0 w)) as (Hb0 & _ & _).
  destruct (attempt_stored (world_after 1 w)) as (Hb1 & _ & _).
  pose proof (bits_of_256 _ (attempt_bits_length _) Hb0 H0) as E0.
  pose proof (bits_of_500 _ (attempt_bits_length _) Hb1 H1) as E1.
  split; [apply random_numbers_over_500_accepts; [exact Hf | lia]|].
  split.
  - eexists. split; [apply accepted_run_calls|].
    unfold attempts. cbn [seq map flat_map]. rewrite E0, E1, app_nil_r.
    split; reflexivity.
  - rewrite world_after_S, record_all_after_attempt, world_after_output, E1.
    reflexivity.
Qed.

Lemma two_attempts_256_then_500_witness :
  run_256_500
  = (Some tt, record_all (world_after 2 (init (scripted script_256_500))))
  /\ output (backend (snd run_256_500))
     = [result_entry 8 1 0; result_entry 7 1 0; result_entry 6 1 0;
        result_entry 5 1 0; result_entry 4 1 0; result_entry 3 0 0;
        result_entry 2 1 0; result_entry 1 0 0; result_entry 0 0 0].
Proof.
  destruct (two_attempts_256_then_500 Scripted _ _ 3
              (init (scripted script_256_500)))
    as (Hrun & _ & Hout); [reflexivity | reflexivity | lia |].
  split; [exact Hrun|].
  unfold run_256_500. rewrite Hrun. exact Hout.
Defined.

(** C8, as stated, fails: no execution of the entry routine calls apply-X
    (nor apply-controlled-phase, nor record-array-output), so not each of
    the seven declared operations is called by some execution. *)
Lemma not_all_seven_called_by_main : ~ (forall op, called_by_main op).
Proof.
  intros Hall. destruct (called_by_main_sampling apply_X (Hall apply_X))
    as [E | [E | [E | E]]]; discriminate E.
Qed.

(** C8, amended: of the seven declared operations, those that some
    execution of ENTRYPOINT__main calls are exactly apply-H,
    measure-and-reset, read-bit and record-scalar-output; no execution calls
    apply-X, apply-controlled-phase or record-array-output. *)
Theorem called_by_main_iff :
  forall op,
    called_by_main op
    <-> (op = apply_H \/ op = measure_and_reset \/ op = read_bit
         \/ op = record_scalar_output).
Proof.
  intros op. split; [apply called_by_main_sampling|].
  intros Hop. exists Scripted, Scripted_QISA, (scripted script_500), 1%nat.
  destruct Hop as [-> | [-> | [-> | ->]]]; reflexivity.
Qed.

(** C9: in every run of random_numbers_over_500 (whatever the fuel, cut
    short or not) and of full_entangle, every measure-and-reset call issued
    by MResetZ names the slot numbered like its qubit: MResetZ(i, i). *)
Theorem MResetZ_slot_is_qubit :
  forall (B : Type) (qisa : QISA B) (b : B),
    (forall fuel,
        forallb slot_is_qubit
          (calls (snd (random_numbers_over_500 fuel (init b)))) = true)
    /\ forallb slot_is_qubit (calls (snd (full_entangle (init b)))) = true.
Proof.
  intros B qisa b. split.
  - intros fuel. apply run_calls_forallb; try reflexivity.
    intros i v. cbn. now rewrite Z.eqb_refl.
  - destruct (full_entangle_calls B qisa (init b))
      as (v8 & v7 & v6 & v5 & v4 & v3 & v2 & v1 & v0 & E).
    rewrite E. reflexivity.
Qed.

(** C10: two runs of the entry routine, on any two backends and with any
    fuel, in which read-bit returned the same sequence of values issue the
    same sequence of intrinsic calls (operations, arguments, returned values,
    order) and end alike (both returned or both still sampling); when both
    backends keep the contract they also append the same entries to their
    output streams. *)
Theorem main_deterministic_in_reads :
  forall (B1 : Type) (qisa1 : QISA B1) (B2 : Type) (qisa2 : QISA B2)
         (b1 : B1) (b2 : B2) (fuel1 fuel2 : nat),
    let r1 := ENTRYPOINT__main fuel1 (init b1) in
    let r2 := ENTRYPOINT__main fuel2 (init b2) in
    reads (calls (snd r1)) = reads (calls (snd r2)) ->
    calls (snd r1) = calls (snd r2)
    /\ fst r1 = fst r2
    /\ (forall (contract1 : Contract B1) (contract2 : Contract B2),
          exists recs,
            output (backend (snd r1)) = output b1 ++ recs
            /\ output (backend (snd r2)) = output b2 ++ recs).
Proof.
  intros B1 qisa1 B2 qisa2 b1 b2 fuel1 fuel2 r1 r2 Hreads.
  unfold ENTRYPOINT__main in r1, r2.
  destruct (run_summary fuel1 (init b1)) as (n1 & Hc1 & Ho1).
  destruct (run_summary fuel2 (init b2)) as (n2 & Hc2 & Ho2).
  fold r1 in Hc1, Ho1. fold r2 in Hc2, Ho2.
  cbn [init calls app] in Hc1, Hc2.
  assert (Hats : attempts n1 (init b1) = attempts n2 (init b2)).
  { rewrite Hc1, Hc2, !reads_app in Hreads.
    rewrite !reads_attempts in Hreads by apply attempts_nine.
    replace (reads (if fst r1 is Some _ then record_calls else [])) with (@nil Z)
      in Hreads by now destruct (fst r1).
    replace (reads (if fst r2 is Some _ then record_calls else [])) with (@nil Z)
      in Hreads by now destruct (fst r2).
    rewrite !app_nil_r in Hreads.
    apply concat_nine_inj; [apply attempts_nine | apply attempts_nine |].
    exact Hreads. }
  assert (Hn : n1 = n2).
  { rewrite <- (attempts_length n1 (init b1)), Hats. apply attempts_length. }
  subst n2.
  assert (Hbits : forall j, (j < n1)%nat ->
            attempt_bits (world_after j (init b1))
            = attempt_bits (world_after j (init b2))).
  { intros j Hj. rewrite <- !(attempts_nth j n1) by exact Hj. now rewrite Hats. }
  assert (Hacc : forall j, (j < n1)%nat ->
            accumulator_of j (init b1) = accumulator_of j (init b2)).
  { intros j Hj. rewrite !accumulator_of_bits. now rewrite Hbits. }
  rewrite Hc1, Hc2, Hats.
  destruct (fst r1) as [[]|], (fst r2) as [[]|].
  - split; [reflexivity|]. split; [reflexivity|].
    intros contract1 contract2.
    destruct Ho1 as (k1 & Hk1 & _ & E1), Ho2 as (k2 & Hk2 & _ & E2).
    assert (k2 = k1) by lia. subst k2 n1.
    exists (records_of (attempt_bits (world_after k1 (init b1)))).
    rewrite E1, E2, !world_after_S, !record_all_after_attempt,
      !world_after_output.
    rewrite (Hbits k1) by lia. split; reflexivity.
  - exfalso. destruct Ho1 as (k1 & Hk1 & Hge & _), Ho2 as [Hall _].
    specialize (Hall k1). rewrite <- Hacc in Hall by lia. lia.
  - exfalso. destruct Ho2 as (k2 & Hk2 & Hge & _), Ho1 as [Hall _].
    specialize (Hall k2). rewrite Hacc in Hall by lia. lia.
  - split; [reflexivity|]. split; [reflexivity|].
    intros contract1 contract2. exists [].
    destruct Ho1 as [_ E1], Ho2 as [_ E2].
    rewrite E1, E2, !world_after_output, !app_nil_r. split; reflexivity.
Qed.

Lemma main_deterministic_in_reads_witness :
  calls (snd (ENTRYPOINT__main 2 (init (scripted script_256_500))))
  = calls (snd (ENTRYPOINT__main 5
                 (init (mkScripted script_256_500 (fun _ => true) []))))
  /\ fst (ENTRYPOINT__main 2 (init (scripted script_256_500)))
     = fst (ENTRYPOINT__main 5
              (init (mkScripted script_256_500 (fun _ => true) []))).
Proof.
  assert (Hreads :
      reads (calls (snd (ENTRYPOINT__main 2 (init (scripted script_256_500)))))
      = reads (calls (snd (ENTRYPOINT__main 5
                 (init (mkScripted script_256_500 (fun _ => true) []))))))
    by (vm_compute; reflexivity).
  pose proof (main_deterministic_in_reads Scripted _ Scripted _
                (scripted script_256_500)
                (mkScripted script_256_500 (fun _ => true) []) 2 5 Hreads)
    as Hdet.
  split; [exact (proj1 Hdet) | exact (proj1 (proj2 Hdet))].
Defined.

(** * Further properties of the code *)

(** ** The measured integer *)

Lemma measure_as_int_reads {B : Type} {qisa : QISA B} (w : World B)
    (d : list intrinsic) :
  calls (snd (measure_as_int w)) = calls w ++ d ->
  reads d = bits_read (upto 0 9) w.
Proof.
  intros Hd. destruct (measure_as_int_run w) as [_ Hc].
  rewrite Hc in Hd. apply app_inv_head in Hd. subst d.
  unfold measure_calls. apply reads_measure_calls_on, bits_read_length.
Qed.

Lemma accumulate_positional (bits : list Z) :
  length bits = 9%nat -> Forall is_bit bits ->
  accumulate bits
  = fold_right (fun b n => b + 2 * n) 0 bits
  /\ bits = map (fun i => Z.b2z (Z.testbit (accumulate bits) i)) (upto 0 9).
Proof.
  intros Hl Hb.
  destruct (length_nine bits Hl)
    as (a0 & a1 & a2 & a3 & a4 & a5 & a6 & a7 & a8 & ->).
  split_bits Hb; split; vm_compute; reflexivity.
Qed.

Lemma accepted_pattern (bits : list Z) :
  length bits = 9%nat -> Forall is_bit bits ->
  accepted (accumulate bits)
  = forallb (fun i => nth i bits 0 =? 1) [4; 5; 6; 7; 8]%nat
    && ((nth 3 bits 0 =? 1) || (nth 2 bits 0 =? 1)).
Proof.
  intros Hl Hb.
  destruct (length_nine bits Hl)
    as (a0 & a1 & a2 & a3 & a4 & a5 & a6 & a7 & a8 & ->).
  split_bits Hb; vm_compute; reflexivity.
Qed.

(** X1: the integer measure_as_int returns is the binary numeral of the
    nine values read, qubit 0 least significant, when these are bits: it is
    their weighted sum, and bit i of it gives back the value read for
    qubit i. *)
Theorem measure_as_int_binary_numeral :
  forall (B : Type) (qisa : QISA B) (w : World B) (d : list intrinsic)
         (b0 b1 b2 b3 b4 b5 b6 b7 b8 : Z),
    calls (snd (measure_as_int w)) = calls w ++ d ->
    reads d = [b0; b1; b2; b3; b4; b5; b6; b7; b8] ->
    Forall is_bit [b0; b1; b2; b3; b4; b5; b6; b7; b8] ->
    let result := fst (measure_as_int w) in
    result = b0 + 2 * b1 + 4 * b2 + 8 * b3 + 16 * b4 + 32 * b5 + 64 * b6
             + 128 * b7 + 256 * b8
    /\ [b0; b1; b2; b3; b4; b5; b6; b7; b8]
       = map (fun i => Z.b2z (Z.testbit result i)) [0; 1; 2; 3; 4; 5; 6; 7; 8].
Proof.
  intros B qisa w d b0 b1 b2 b3 b4 b5 b6 b7 b8 Hd Hr Hb result.
  rewrite (measure_as_int_reads w d Hd) in Hr.
  destruct (measure_as_int_run w) as [Hv _]. subst result.
  rewrite Hv, Hr.
  destruct (accumulate_positional [b0; b1; b2; b3; b4; b5; b6; b7; b8]
              eq_refl Hb) as [Hsum Hbits].
  split; [rewrite Hsum; cbn [fold_right]; lia | exact Hbits].
Qed.

Lemma measure_as_int_binary_numeral_witness :
  fst (measure_as_int (init (scripted script_500)))
  = 0 + 2 * 0 + 4 * 1 + 8 * 0 + 16 * 1 + 32 * 1 + 64 * 1 + 128 * 1 + 256 * 1
  /\ [0; 0; 1; 0; 1; 1; 1; 1; 1]
     = map (fun i => Z.b2z (Z.testbit
                              (fst (measure_as_int (init (scripted script_500))))
                              i))
           [0; 1; 2; 3; 4; 5; 6; 7; 8].
Proof.
  apply (measure_as_int_binary_numeral Scripted _ (init (scripted script_500))
           (calls (snd (measure_as_int (init (scripted script_500)))))
           0 0 1 0 1 1 1 1 1).
  - reflexivity.
  - vm_compute. reflexivity.
  - repeat constructor; (left; reflexivity) || (right; reflexivity).
Defined.

(** X2: two calls of measure_as_int, on any backends, that read bits and
    return the same integer have read the same nine bits: distinct outcomes
    never collide in the accumulator. *)
Theorem measure_as_int_injective :
  forall (B1 : Type) (qisa1 : QISA B1) (B2 : Type) (qisa2 : QISA B2)
         (w1 : World B1) (w2 : World B2) (d1 d2 : list intrinsic),
    calls (snd (measure_as_int w1)) = calls w1 ++ d1 ->
    calls (snd (measure_as_int w2)) = calls w2 ++ d2 ->
    Forall is_bit (reads d1) -> Forall is_bit (reads d2) ->
    fst (measure_as_int w1) = fst (measure_as_int w2) ->
    reads d1 = reads d2.
Proof.
  intros B1 qisa1 B2 qisa2 w1 w2 d1 d2 Hd1 Hd2 Hb1 Hb2 Heq.
  rewrite (measure_as_int_reads w1 d1 Hd1) in Hb1 |- *.
  rewrite (measure_as_int_reads w2 d2 Hd2) in Hb2 |- *.
  destruct (measure_as_int_run w1) as [Hv1 _].
  destruct (measure_as_int_run w2) as [Hv2 _].
  rewrite Hv1, Hv2 in Heq.
  destruct (accumulate_positional _ (bits_read_length (upto 0 9) w1) Hb1)
    as [_ E1].
  destruct (accumulate_positional _ (bits_read_length (upto 0 9) w2) Hb2)
    as [_ E2].
  rewrite E1, E2, Heq. reflexivity.
Qed.

Lemma measure_as_int_injective_witness :
  reads (calls (snd (measure_as_int (init (scripted script_500)))))
  = reads (calls (snd (measure_as_int
                         (init (mkScripted script_500 (fun _ => true) []))))).
Proof.
  apply (measure_as_int_injective Scripted _ Scripted _
           (init (scripted script_500))
           (init (mkScripted script_500 (fun _ => true) []))).
  - reflexivity.
  - reflexivity.
  - vm_compute.
    repeat constructor; (left; reflexivity) || (right; reflexivity).
  - vm_compute.
    repeat constructor; (left; reflexivity) || (right; reflexivity).
  - vm_compute. reflexivity.
Defined.

(** ** Orders and bounds in the logs of both programs *)

Lemma recorded_after_measured_split (tr : list intrinsic) :
  forall (measured : list Z) (pre post : list intrinsic) (rid label : Z),
    recorded_after_measured measured tr = true ->
    tr = pre ++ rt_result_record_output rid label :: post ->
    In rid measured \/ exists q, In (qis_mresetz q rid) pre.
Proof.
  induction tr as [|e tr IH]; intros measured pre post rid label Hchk E.
  - now destruct pre.
  - destruct pre as [|p pre]; cbn [app] in E; injection E as -> E.
    + left. cbn in Hchk. apply andb_true_iff in Hchk. destruct Hchk as [Hm _].
      apply existsb_exists in Hm. destruct Hm as (r & Hin & Hr).
      apply Z.eqb_eq in Hr. now subst r.
    + assert (Hrest : exists m',
                 recorded_after_measured m' tr = true
                 /\ (forall r, In r m' ->
                       In r measured \/ exists q, p = qis_mresetz q r)).
      { destruct p; cbn in Hchk;
          try (exists measured; split; [exact Hchk | now left]).
        - exists (result :: measured). split; [exact Hchk|].
          intros r [<- | Hin]; [right; now exists qubit | now left].
        - apply andb_true_iff in Hchk. exists measured.
          split; [apply Hchk | now left]. }
      destruct Hrest as (m' & Hchk' & Hm').
      destruct (IH m' pre post rid label Hchk' E) as [Hin | (q & Hin)].
      * destruct (Hm' rid Hin) as [Hin' | (q & ->)];
          [now left | right; exists q; now left].
      * right. exists q. now right.
Qed.

Lemma recorded_after_measured_skip (a b : list intrinsic) :
  existsb is_record a = false ->
  (forall measured, recorded_after_measured measured b = true) ->
  forall measured, recorded_after_measured measured (a ++ b) = true.
Proof.
  intros Ha Hb. induction a as [|e a IH]; intros measured; [apply Hb|].
  cbn in Ha. apply orb_false_iff in Ha. destruct Ha as [He Ha].
  destruct e; try discriminate He; cbn; now apply IH.
Qed.

Lemma accepted_then_records_checked (bits : list Z) :
  length bits = 9%nat ->
  forall measured,
    recorded_after_measured measured (attempt_calls bits ++ record_calls)
    = true.
Proof.
  intros Hl measured.
  destruct (length_nine bits Hl)
    as (a0 & a1 & a2 & a3 & a4 & a5 & a6 & a7 & a8 & ->).
  reflexivity.
Qed.

Lemma run_recorded_after_measured {B : Type} {qisa : QISA B}
    (fuel : nat) (b : B) :
  recorded_after_measured []
    (calls (snd (random_numbers_over_500 fuel (init b)))) = true.
Proof.
  destruct (run_cases fuel (init b)) as [(k & _ & _ & E) | [_ E]];
    rewrite E; cbn [snd].
  - rewrite accepted_run_calls. cbn [init calls app].
    apply recorded_after_measured_skip;
      [apply attempts_calls_no_record|].
    apply accepted_then_records_checked, attempt_bits_length.
  - rewrite world_after_calls. cbn [init calls app].
    rewrite <- (app_nil_r (flat_map _ _)).
    apply recorded_after_measured_skip;
      [apply attempts_calls_no_record | reflexivity].
Qed.

(** X5: neither program records a slot it has not measured: in every run
    of random_numbers_over_500 (any fuel) and of full_entangle, each
    record call for a slot comes after a measure-and-reset call that wrote
    that slot. *)
Theorem record_only_after_measure :
  forall (B : Type) (qisa : QISA B) (b : B),
    (forall fuel pre post rid label,
        calls (snd (random_numbers_over_500 fuel (init b)))
        = pre ++ rt_result_record_output rid label :: post ->
        exists q, In (qis_mresetz q rid) pre)
    /\ (forall pre post rid label,
          calls (snd (full_entangle (init b)))
          = pre ++ rt_result_record_output rid label :: post ->
          exists q, In (qis_mresetz q rid) pre).
Proof.
  intros B qisa b. split.
  - intros fuel pre post rid label E.
    destruct (recorded_after_measured_split _ [] pre post rid label
                (run_recorded_after_measured fuel b) E) as [[] | Hq].
    exact Hq.
  - intros pre post rid label E.
    assert (Hchk : recorded_after_measured []
                     (calls (snd (full_entangle (init b)))) = true).
    { destruct (full_entangle_calls B qisa (init b))
        as (v8 & v7 & v6 & v5 & v4 & v3 & v2 & v1 & v0 & Hc).
      rewrite Hc. reflexivity. }
    destruct (recorded_after_measured_split _ [] pre post rid label Hchk E)
      as [[] | Hq].
    exact Hq.
Qed.

Lemma run_calls_forallb_nine {B : Type} {qisa : QISA B}
    (P : intrinsic -> bool) (fuel : nat) (b : B) :
  (forall bits, length bits = 9%nat -> forallb P (attempt_calls bits) = true) ->
  forallb P record_calls = true ->
  forallb P (calls (snd (random_numbers_over_500 fuel (init b)))) = true.
Proof.
  intros HP Hr.
  assert (Hats : forall k, forallb P (flat_map attempt_calls
                                        (attempts k (init b))) = true).
  { intros k. pose proof (attempts_nine k (init b)) as Hn.
    induction Hn as [|bits ats Hb Hn IH]; [reflexivity|].
    cbn [flat_map]. now rewrite forallb_app, HP, IH. }
  destruct (run_cases fuel (init b)) as [(k & _ & _ & E) | [_ E]];
    rewrite E; cbn [snd].
  - rewrite accepted_run_calls. cbn [init calls app].
    rewrite !forallb_app, Hats, Hr, HP by apply attempt_bits_length.
    reflexivity.
  - rewrite world_after_calls. cbn [init calls app]. apply Hats.
Qed.

(** X6: every qubit and slot handle either program passes to the backend
    is one of 0..8, and every record call carries the null label. *)
Theorem programs_well_addressed :
  forall (B : Type) (qisa : QISA B) (b : B),
    (forall fuel,
        forallb well_addressed
          (calls (snd (random_numbers_over_500 fuel (init b)))) = true)
    /\ forallb well_addressed (calls (snd (full_entangle (init b)))) = true.
Proof.
  intros B qisa b. split.
  - intros fuel. apply run_calls_forallb_nine; [|reflexivity].
    intros bits Hl.
    destruct (length_nine bits Hl)
      as (a0 & a1 & a2 & a3 & a4 & a5 & a6 & a7 & a8 & ->).
    reflexivity.
  - destruct (full_entangle_calls B qisa (init b))
      as (v8 & v7 & v6 & v5 & v4 & v3 & v2 & v1 & v0 & E).
    rewrite E. reflexivity.
Qed.

(** ** What a run costs *)

Lemma count_operation_app (op : operation) (a b : list intrinsic) :
  count_operation op (a ++ b)
  = (count_operation op a + count_operation op b)%nat.
Proof. unfold count_operation. now rewrite filter_app, length_app. Qed.

Lemma count_operation_attempt (op : operation) (bits : list Z) :
  length bits = 9%nat ->
  count_operation op (attempt_calls bits)
  = match op with
    | apply_H | measure_and_reset | read_bit => 9%nat
    | _ => 0%nat
    end.
Proof.
  intros Hl.
  destruct (length_nine bits Hl)
    as (a0 & a1 & a2 & a3 & a4 & a5 & a6 & a7 & a8 & ->).
  destruct op; reflexivity.
Qed.

Lemma count_operation_attempts (op : operation) (ats : list (list Z)) :
  Forall (fun bits => length bits = 9%nat) ats ->
  count_operation op (flat_map attempt_calls ats)
  = (match op with
     | apply_H | measure_and_reset | read_bit => 9
     | _ => 0
     end * length ats)%nat.
Proof.
  induction 1 as [|bits ats Hb Hats IH]; [destruct op; reflexivity|].
  cbn [flat_map length].
  rewrite count_operation_app, count_operation_attempt, IH by exact Hb.
  destruct op; lia.
Qed.

Lemma length_attempts_calls (ats : list (list Z)) :
  Forall (fun bits => length bits = 9%nat) ats ->
  length (flat_map attempt_calls ats) = (27 * length ats)%nat.
Proof.
  induction 1 as [|bits ats Hb Hats IH]; [reflexivity|].
  cbn [flat_map length]. rewrite length_app, IH.
  destruct (length_nine bits Hb)
    as (a0 & a1 & a2 & a3 & a4 & a5 & a6 & a7 & a8 & ->).
  cbn [attempt_calls]. change (length (attempt_calls _)) with 27%nat. lia.
Qed.

(** X7: what a run of random_numbers_over_500 costs.  A run that returns
    has gone through some number n of Sampling iterations, at least one, and
    has issued exactly 9n apply-H calls, 9n measure-and-reset calls, 9n
    read-bit calls and 9 record calls, 27n + 9 calls in all; a run still
    sampling when its fuel ends has issued 9 of each of the first three per
    iteration and no record call. *)
Theorem run_call_counts :
  forall (B : Type) (qisa : QISA B) (fuel : nat) (b : B),
    let r := random_numbers_over_500 fuel (init b) in
    exists n : nat,
      (n <= fuel)%nat
      /\ count_operation apply_H (calls (snd r)) = (9 * n)%nat
      /\ count_operation measure_and_reset (calls (snd r)) = (9 * n)%nat
      /\ count_operation read_bit (calls (snd r)) = (9 * n)%nat
      /\ match fst r with
         | Some _ =>
             (1 <= n)%nat
             /\ count_operation record_scalar_output (calls (snd r)) = 9%nat
             /\ length (calls (snd r)) = (27 * n + 9)%nat
         | None =>
             n = fuel
             /\ count_operation record_scalar_output (calls (snd r)) = 0%nat
             /\ length (calls (snd r)) = (27 * n)%nat
         end.
Proof.
  intros B qisa fuel b r. subst r.
  destruct (run_cases fuel (init b)) as [(k & Hk & _ & E) | [_ E]];
    rewrite E; cbn [fst snd].
  - exists (S k).
    rewrite accepted_run_calls. cbn [init calls app].
    pose proof (attempts_nine (S k) (init b)) as Hn.
    assert (Hcalls :
      flat_map attempt_calls (attempts k (init b))
      ++ attempt_calls (attempt_bits (world_after k (init b))) ++ record_calls
      = flat_map attempt_calls (attempts (S k) (init b)) ++ record_calls).
    { rewrite attempts_S, flat_map_app. cbn [flat_map].
      now rewrite app_nil_r, <- app_assoc. }
    rewrite Hcalls, !count_operation_app, length_app.
    rewrite !count_operation_attempts, length_attempts_calls by exact Hn.
    rewrite attempts_length.
    change (count_operation apply_H record_calls) with 0%nat.
    change (count_operation measure_and_reset record_calls) with 0%nat.
    change (count_operation read_bit record_calls) with 0%nat.
    change (count_operation record_scalar_output record_calls) with 9%nat.
    change (length record_calls) with 9%nat.
    repeat split; lia.
  - exists fuel.
    rewrite world_after_calls. cbn [init calls app].
    pose proof (attempts_nine fuel (init b)) as Hn.
    rewrite !count_operation_attempts, length_attempts_calls by exact Hn.
    rewrite attempts_length.
    repeat split; lia.
Qed.

(** ** The helpers and the classical state *)

(** X8: on a backend keeping the contract, MResetZ(q, r) returns a bit that
    is the value slot r holds afterwards, changes no other slot and appends
    nothing to the output stream; its calls are the measure-and-reset of q
    into r and the read of r, in this order. *)
Theorem MResetZ_returns_stored_bit :
  forall (B : Type) (qisa : QISA B) (contract : Contract B)
         (q r : Z) (w : World B),
    let v := fst (MResetZ q r w) in
    let w' := snd (MResetZ q r w) in
    is_bit v
    /\ v = stored (backend w') r
    /\ (forall r', r' <> r -> stored (backend w') r' = stored (backend w) r')
    /\ output (backend w') = output (backend w)
    /\ calls w' = calls w ++ [qis_mresetz q r; qis_read_result r v].
Proof.
  intros B qisa contract q r w v w'. subst v w'.
  pose proof (MResetZ_run q r w) as E. cbn zeta in E. rewrite E.
  cbn [fst snd backend calls]. repeat split.
  - apply read_is_bit.
  - now rewrite read_keeps_slots, read_is_stored.
  - intros r' Hr'. rewrite read_keeps_slots.
    now apply mresetz_keeps_other_slots.
  - now rewrite read_keeps_output, mresetz_keeps_output.
Qed.

Lemma Forall2_map_eq {A C : Type} (f : A -> C) (l : list A) (vs : list C) :
  Forall2 (fun i v => f i = v) l vs -> map f l = vs.
Proof.
  induction 1 as [|i v l vs Hi Hs IH]; [reflexivity|].
  cbn [map]. now rewrite Hi, IH.
Qed.

(** X9: on a backend keeping the contract, after measure_as_int the slots
    0..8 hold, in this order, the nine values it read, which are bits; no
    other slot has changed and nothing was appended to the output stream. *)
Theorem measure_as_int_fills_slots :
  forall (B : Type) (qisa : QISA B) (contract : Contract B)
         (w : World B) (d : list intrinsic),
    calls (snd (measure_as_int w)) = calls w ++ d ->
    map (stored (backend (snd (measure_as_int w)))) [0; 1; 2; 3; 4; 5; 6; 7; 8]
    = reads d
    /\ Forall is_bit (reads d)
    /\ (forall r, ~ 0 <= r <= 8 ->
          stored (backend (snd (measure_as_int w))) r = stored (backend w) r)
    /\ output (backend (snd (measure_as_int w))) = output (backend w).
Proof.
  intros B qisa contract w d Hd.
  rewrite (measure_as_int_reads w d Hd).
  destruct (measure_loop_stored (upto 0 9) upto_0_9_NoDup 0 w)
    as (Hb & Ho & Hs & Hr).
  cbn zeta in Ho, Hs, Hr.
  change (for_fold (upto 0 9) 0 _ w) with (measure_as_int w) in Ho, Hs, Hr.
  split; [|split; [exact Hb | split; [|exact Ho]]].
  - rewrite <- upto_0_9. now apply Forall2_map_eq.
  - intros r Hr'. apply Hr. rewrite upto_0_9. cbn [In]. lia.
Qed.

Lemma measure_as_int_fills_slots_witness :
  map (stored (backend (snd (measure_as_int (init (scripted script_500))))))
      [0; 1; 2; 3; 4; 5; 6; 7; 8]
  = reads (calls (snd (measure_as_int (init (scripted script_500)))))
  /\ Forall is_bit
       (reads (calls (snd (measure_as_int (init (scripted script_500))))))
  /\ (forall r, ~ 0 <= r <= 8 ->
        stored (backend (snd (measure_as_int (init (scripted script_500))))) r
        = stored (backend (init (scripted script_500))) r)
  /\ output (backend (snd (measure_as_int (init (scripted script_500)))))
     = output (backend (init (scripted script_500))).
Proof.
  apply (measure_as_int_fills_slots Scripted _ _ (init (scripted script_500))
           (calls (snd (measure_as_int (init (scripted script_500)))))).
  reflexivity.
Defined.

(** X10: make_random_state issues exactly nine calls, apply-H on the qubits
    0, 1, ..., 8 in this order, and leaves the backend in the state these
    nine operations produce from the state it found. *)
Theorem make_random_state_nine_H :
  forall (B : Type) (qisa : QISA B) (w : World B),
    calls (snd (make_random_state w))
    = calls w ++ [qis_h 0; qis_h 1; qis_h 2; qis_h 3; qis_h 4;
                  qis_h 5; qis_h 6; qis_h 7; qis_h 8]
    /\ backend (snd (make_random_state w))
       = fold_left (fun b q => __quantum__qis__h__body q b)
           [0; 1; 2; 3; 4; 5; 6; 7; 8] (backend w).
Proof.
  intros B qisa w. split; [apply make_random_state_calls|].
  unfold make_random_state. rewrite upto_0_9.
  rewrite !for_each_cons. reflexivity.
Qed.

(** ** What full_entangle records *)

Section Entangle.

Context {B : Type} {qisa : QISA B} {contract : Contract B}.

Hypothesis cz_keeps_output : forall c t b,
  output (__quantum__qis__cz__body c t b) = output b.

Lemma CX_output (c t : Z) (w : World B) :
  output (backend (snd (CX c t w))) = output (backend w).
Proof.
  rewrite CX_run. cbn [snd backend].
  now rewrite h_keeps_output, cz_keeps_output, h_keeps_output.
Qed.

(** The measure-then-record loop over any index list. *)
Lemma measure_record_loop (l : list Z) :
  forall w : World B,
    let w' := snd (for_each l (fun i =>
                bind (MResetZ i i) (fun _ => RecordResult i)) w) in
    exists d,
      calls w' = calls w ++ d
      /\ length (reads d) = length l
      /\ Forall is_bit (reads d)
      /\ output (backend w')
         = output (backend w)
           ++ map (fun '(i, v) => result_entry i v 0) (combine l (reads d)).
Proof.
  induction l as [|i l IH]; intros w; cbn zeta.
  - exists []. cbn. rewrite !app_nil_r. repeat split. constructor.
  - rewrite for_each_cons, bind_eq.
    pose proof (MResetZ_run i i w) as E. cbn zeta in E. rewrite E.
    cbn [fst snd].
    set (m := __quantum__qis__mresetz__body i i (backend w)).
    set (v := fst (__quantum__qis__read_result__body i m)).
    set (w1 := snd (RecordResult i _)).
    destruct (IH w1) as (d & Hc & Hl & Hb & Ho). cbn zeta in Hc, Ho.
    exists (MResetZ_calls i i v ++ rt_result_record_output i 0 :: d).
    rewrite Hc, Ho. subst w1.
    unfold RecordResult, result_record_output. cbn [snd backend calls].
    rewrite record_appends, read_keeps_slots, read_keeps_output.
    rewrite <- (read_is_stored i m). fold v.
    subst m. rewrite mresetz_keeps_output.
    change (reads (MResetZ_calls i i v ++ rt_result_record_output i 0 :: d))
      with (v :: reads d).
    cbn [length combine map calls]. repeat split.
    + now rewrite <- !app_assoc.
    + now rewrite Hl.
    + constructor; [apply read_is_bit | exact Hb].
    + now rewrite <- app_assoc.
Qed.

Lemma full_entangle_output (w : World B) :
  exists d,
    calls (snd (full_entangle w)) = calls w ++ d
    /\ length (reads d) = 9%nat
    /\ Forall is_bit (reads d)
    /\ output (backend (snd (full_entangle w)))
       = output (backend w)
         ++ map (fun '(i, v) => result_entry i v 0)
                (combine [8; 7; 6; 5; 4; 3; 2; 1; 0] (reads d)).
Proof.
  unfold full_entangle. rewrite !bind_eq.
  set (wg := snd (CX 7 8 _)).
  destruct (measure_record_loop (downto 8 0) wg) as (d & Hc & Hl & Hb & Ho).
  cbn zeta in Hc, Ho.
  assert (Hwg : calls wg
                = calls w ++ [qis_h 0] ++ CX_calls 0 1 ++ CX_calls 1 2
                  ++ CX_calls 2 3 ++ CX_calls 3 4 ++ CX_calls 4 5
                  ++ CX_calls 5 6 ++ CX_calls 6 7 ++ CX_calls 7 8
                /\ output (backend wg) = output (backend w)).
  { subst wg. split.
    - rewrite !CX_run. cbn [snd calls H h__body fst].
      now rewrite <- !app_assoc.
    - rewrite !CX_output. unfold H, h__body. cbn [snd backend].
      apply h_keeps_output. }
  destruct Hwg as [Hcg Hog].
  exists (([qis_h 0] ++ CX_calls 0 1 ++ CX_calls 1 2 ++ CX_calls 2 3
           ++ CX_calls 3 4 ++ CX_calls 4 5 ++ CX_calls 5 6 ++ CX_calls 6 7
           ++ CX_calls 7 8) ++ d).
  rewrite Hc, Ho, Hcg, Hog, reads_app.
  change (reads ([qis_h 0] ++ _)) with (@nil Z). cbn [app].
  repeat split; try assumption.
  now rewrite <- !app_assoc.
Qed.

End Entangle.

(** X11: on a backend keeping the contract whose controlled-phase gate
    leaves the output stream alone, full_entangle reads nine bits and
    appends to the output stream exactly nine entries, for the slots 8, 7,
    ..., 0 in this order, each holding the bit read for its slot in this
    run. *)
Theorem full_entangle_records_reads :
  forall (B : Type) (qisa : QISA B) (contract : Contract B) (w : World B),
    (forall c t b, output (__quantum__qis__cz__body c t b) = output b) ->
    exists d,
      calls (snd (full_entangle w)) = calls w ++ d
      /\ length (reads d) = 9%nat
      /\ Forall is_bit (reads d)
      /\ output (backend (snd (full_entangle w)))
         = output (backend w)
           ++ map (fun '(i, v) => result_entry i v 0)
                  (combine [8; 7; 6; 5; 4; 3; 2; 1; 0] (reads d)).
Proof.
  intros B qisa contract w Hcz. now apply full_entangle_output.
Qed.

Lemma full_entangle_records_reads_witness :
  exists d,
    calls (snd (full_entangle (init (scripted script_500))))
    = calls (init (scripted script_500)) ++ d
    /\ length (reads d) = 9%nat
    /\ Forall is_bit (reads d)
    /\ output (backend (snd (full_entangle (init (scripted script_500)))))
       = output (backend (init (scripted script_500)))
         ++ map (fun '(i, v) => result_entry i v 0)
                (combine [8; 7; 6; 5; 4; 3; 2; 1; 0] (reads d)).
Proof.
  apply (full_entangle_records_reads Scripted _ _ (init (scripted script_500))).
  reflexivity.
Defined.

(** ** Which outcomes end the sampling *)

Lemma attempt_unfold {B : Type} {qisa : QISA B} (w : World B) :
  attempt w = measure_as_int (snd (make_random_state w)).
Proof. unfold attempt. now rewrite bind_eq. Qed.

Lemma length_attempt_calls (bits : list Z) :
  length bits = 9%nat -> length (attempt_calls bits) = 27%nat.
Proof.
  intros Hl.
  destruct (length_nine bits Hl)
    as (a0 & a1 & a2 & a3 & a4 & a5 & a6 & a7 & a8 & ->).
  reflexivity.
Qed.

(** A run returns right after its first iteration exactly when that
    iteration's accumulator passes the loop test. *)
Lemma first_iteration_returns_iff {B : Type} {qisa : QISA B}
    (fuel : nat) (w : World B) :
  random_numbers_over_500 (S fuel) w = (Some tt, record_all (snd (attempt w)))
  <-> 500 <= fst (attempt w).
Proof.
  split.
  - intros Hrun.
    destruct (Z_lt_le_dec (fst (attempt w)) 500) as [Hlt | Hge];
      [exfalso | exact Hge].
    destruct (run_cases (S fuel) w) as [(k & _ & [_ Hk] & E) | [_ E]];
      rewrite E in Hrun; [|discriminate Hrun].
    destruct k as [|k]; [rewrite accumulator_of_0 in Hk; lia|].
    assert (Hc : calls (record_all (world_after (S (S k)) w))
                 = calls (record_all (snd (attempt w)))) by congruence.
    rewrite accepted_run_calls, record_all_calls in Hc.
    destruct (attempt_run w) as [_ Hw]. rewrite Hw in Hc.
    apply (f_equal (@length intrinsic)) in Hc.
    rewrite !length_app, length_attempts_calls in Hc by apply attempts_nine.
    rewrite attempts_length, !length_attempt_calls in Hc
      by apply attempt_bits_length.
    lia.
  - intros Hge.
    rewrite (random_numbers_over_500_accepts 0 (S fuel) w).
    + now rewrite world_after_S.
    + split; [intros j Hj; lia | now rewrite accumulator_of_0].
    + lia.
Qed.

(** The same, with the iteration's reads in hand. *)
Lemma first_iteration_returns_bits {B : Type} {qisa : QISA B}
    (fuel : nat) (w : World B) (d : list intrinsic) :
  calls (snd (measure_as_int (snd (make_random_state w))))
  = calls (snd (make_random_state w)) ++ d ->
  random_numbers_over_500 (S fuel) w
  = (Some tt,
     snd (for_each (downto 8 0) RecordResult
            (snd (measure_as_int (snd (make_random_state w))))))
  <-> 500 <= accumulate (reads d).
Proof.
  intros Hd.
  rewrite (measure_as_int_reads _ d Hd).
  destruct (measure_as_int_run (snd (make_random_state w))) as [Hv _].
  rewrite <- Hv, <- attempt_unfold.
  apply first_iteration_returns_iff.
Qed.

(** X3: which outcomes end the sampling.  A run of random_numbers_over_500
    whose first iteration reads nine bits returns right after that iteration
    (having recorded the nine slots) exactly when qubits 4 to 8 all read 1
    and qubit 2 or qubit 3 read 1; what qubits 0 and 1 read never matters.
    The run may start in any world, so this holds of every iteration. *)
Theorem loop_left_iff_bit_pattern :
  forall (B : Type) (qisa : QISA B) (w : World B) (d : list intrinsic)
         (b0 b1 b2 b3 b4 b5 b6 b7 b8 : Z) (fuel : nat),
    calls (snd (measure_as_int (snd (make_random_state w))))
    = calls (snd (make_random_state w)) ++ d ->
    reads d = [b0; b1; b2; b3; b4; b5; b6; b7; b8] ->
    Forall is_bit [b0; b1; b2; b3; b4; b5; b6; b7; b8] ->
    random_numbers_over_500 (S fuel) w
    = (Some tt,
       snd (for_each (downto 8 0) RecordResult
              (snd (measure_as_int (snd (make_random_state w))))))
    <-> (b4 = 1 /\ b5 = 1 /\ b6 = 1 /\ b7 = 1 /\ b8 = 1
         /\ (b3 = 1 \/ b2 = 1)).
Proof.
  intros B qisa w d b0 b1 b2 b3 b4 b5 b6 b7 b8 fuel Hd Hr Hb.
  rewrite (first_iteration_returns_bits fuel w d Hd), Hr.
  pose proof (accepted_pattern [b0; b1; b2; b3; b4; b5; b6; b7; b8]
                eq_refl Hb) as Hp.
  unfold accepted, Int.lt in Hp. cbn [forallb nth] in Hp.
  rewrite <- Z.ltb_ge, <- negb_true_iff, Hp.
  rewrite !andb_true_iff, orb_true_iff, !Z.eqb_eq.
  tauto.
Qed.

Lemma loop_left_iff_bit_pattern_witness :
  random_numbers_over_500 1 (init (scripted script_500))
  = (Some tt,
     snd (for_each (downto 8 0) RecordResult
            (snd (measure_as_int
                    (snd (make_random_state (init (scripted script_500))))))))
  <-> (1 = 1 /\ 1 = 1 /\ 1 = 1 /\ 1 = 1 /\ 1 = 1 /\ (0 = 1 \/ 1 = 1)).
Proof.
  apply (loop_left_iff_bit_pattern Scripted _ (init (scripted script_500))
           (skipn 9 (calls (snd (measure_as_int
              (snd (make_random_state (init (scripted script_500))))))))
           0 0 1 0 1 1 1 1 1 0).
  - vm_compute. reflexivity.
  - vm_compute. reflexivity.
  - repeat constructor; (left; reflexivity) || (right; reflexivity).
Defined.

Lemma bit_lists_complete (l : list Z) :
  Forall is_bit l -> In l (bit_lists (length l)).
Proof.
  induction 1 as [|b l Hb Hl IH]; [now left|].
  cbn [length bit_lists]. apply in_flat_map. exists l. split; [exact IH|].
  destruct Hb as [-> | ->]; [left | right; left]; reflexivity.
Qed.

Lemma bit_lists_sound (n : nat) :
  forall l, In l (bit_lists n) -> length l = n /\ Forall is_bit l.
Proof.
  induction n as [|n IH]; intros l Hin.
  - destruct Hin as [<- | []]. split; [reflexivity | constructor].
  - cbn [bit_lists] in Hin. apply in_flat_map in Hin.
    destruct Hin as (l' & Hl' & [<- | [<- | []]]);
      destruct (IH l' Hl') as [Hlen Hb];
      (split; [cbn; now rewrite Hlen | constructor; [|exact Hb]]);
      [left | right]; reflexivity.
Qed.

Lemma accepted_numeral (bits : list Z) :
  length bits = 9%nat -> Forall is_bit bits ->
  500 <= accumulate bits
  <-> In bits (map numeral_bits
                 [500; 501; 502; 503; 504; 505; 506; 507; 508; 509; 510; 511]).
Proof.
  intros Hl Hb. split.
  - intros Hge.
    destruct (accumulate_bits bits Hl Hb) as [_ Hr].
    destruct (accumulate_positional bits Hl Hb) as [_ Hbits].
    rewrite upto_0_9 in Hbits. fold (numeral_bits (accumulate bits)) in Hbits.
    rewrite Hbits. apply in_map. cbn [In]. lia.
  - intros Hin. apply in_map_iff in Hin. destruct Hin as (n & <- & Hn).
    cbn [In] in Hn. apply Z.leb_le.
    repeat (destruct Hn as [<- | Hn]; [vm_compute; reflexivity|]).
    destruct Hn.
Qed.

(** X4: of the 512 outcomes one Sampling iteration can read (nine bits),
    exactly 12 make a run of random_numbers_over_500 return right after that
    iteration: the binary numerals, qubit 0 least significant, of 500, 501,
    ..., 511, which are twelve different outcomes. *)
Theorem twelve_outcomes_accepted :
  (forall (B : Type) (qisa : QISA B) (w : World B) (d : list intrinsic)
          (fuel : nat),
      calls (snd (measure_as_int (snd (make_random_state w))))
      = calls (snd (make_random_state w)) ++ d ->
      Forall is_bit (reads d) ->
      In (reads d) (bit_lists 9)
      /\ (random_numbers_over_500 (S fuel) w
          = (Some tt,
             snd (for_each (downto 8 0) RecordResult
                    (snd (measure_as_int (snd (make_random_state w))))))
          <-> In (reads d)
                (map numeral_bits
                   [500; 501; 502; 503; 504; 505;
                    506; 507; 508; 509; 510; 511])))
  /\ (forall bits, In bits (bit_lists 9)
                   <-> (length bits = 9%nat /\ Forall is_bit bits))
  /\ length (bit_lists 9) = 512%nat
  /\ NoDup (map numeral_bits
              [500; 501; 502; 503; 504; 505; 506; 507; 508; 509; 510; 511])
  /\ length (map numeral_bits
               [500; 501; 502; 503; 504; 505; 506; 507; 508; 509; 510; 511])
     = 12%nat.
Proof.
  split; [|split; [|split; [|split]]].
  - intros B qisa w d fuel Hd Hb.
    assert (Hl : length (reads d) = 9%nat).
    { rewrite (measure_as_int_reads _ d Hd). apply bits_read_length. }
    split.
    + rewrite <- Hl. now apply bit_lists_complete.
    + rewrite (first_iteration_returns_bits fuel w d Hd).
      now apply accepted_numeral.
  - intros bits. split.
    + apply bit_lists_sound.
    + intros [Hl Hb]. rewrite <- Hl. now apply bit_lists_complete.
  - vm_compute. reflexivity.
  - repeat (constructor; [vm_compute; intuition discriminate|]). constructor.
  - reflexivity.
Qed.
